(** * Room/session engine of the real-time chat server (src/server.js)

    A shallow embedding of the handlers registered in [server.js] and of
    the part of the Socket.IO API they call, followed by the properties
    of the room history, of membership and of the fan-out of events.

    Conventions.
    - A JavaScript string is the list of its UTF-16 code units.
    - A value received from a client is a [JsVal]. Numbers are integers
      or [NaN]: of a number the handlers only ask whether it is falsy.
      An object received as a field value is a reference: the handlers
      observe its truthiness, its type and its identity as a [Map] key,
      never its contents. Socket.IO does look into one kind of object:
      given an array as room, [io.in] and [socket.to] address the rooms
      the array lists. That is not modelled, a [JObj] is a key like any
      other; what is stated about the recipients of an event and about
      member counts is therefore stated for rooms named by a string, or
      by a value that is not an object.
    - The argument that a handler takes apart is a [Payload].
    - The acknowledgment callback [cb] is a function or is absent.
    - Socket.IO is modelled as its documentation describes it, with the
      default in-memory adapter: [socket.join], [socket.leave] and
      [allSockets] read and write the adapter in the turn in which they
      are called, so a handler is one atomic step on the [Server] state.
      Two handlers interleaved at an [await] are not modelled.
    - [Date.now], [Math.random] and [new Date] are inputs of the step. *)

From Stdlib Require Import Ascii String.
From stdpp Require Import gmap strings list fin_maps fin_sets.

#[local] Set Warnings "-clear-no-such-hyp".

(** ** JavaScript values *)

Abbreviation jsstring := (list N).

(** The code units of an ASCII literal. *)
Definition str (s : string) : jsstring :=
  N_of_ascii <$> list_ascii_of_string s.

Inductive JsVal : Type :=
| JUndefined
| JNull
| JBool (b : bool)
| JNum (n : Z)
| JNaN
| JStr (s : jsstring)
| JObj (ref : N).

#[global] Instance JsVal_eq_dec : EqDecision JsVal.
Proof. solve_decision. Defined.

Definition JsVal_code (v : JsVal) : unit + unit + bool + Z + unit + jsstring + N :=
  match v with
  | JUndefined => inl (inl (inl (inl (inl (inl tt)))))
  | JNull => inl (inl (inl (inl (inl (inr tt)))))
  | JBool b => inl (inl (inl (inl (inr b))))
  | JNum n => inl (inl (inl (inr n)))
  | JNaN => inl (inl (inr tt))
  | JStr s => inl (inr s)
  | JObj r => inr r
  end.

Definition JsVal_decode (c : unit + unit + bool + Z + unit + jsstring + N) : JsVal :=
  match c with
  | inl (inl (inl (inl (inl (inl _))))) => JUndefined
  | inl (inl (inl (inl (inl (inr _))))) => JNull
  | inl (inl (inl (inl (inr b)))) => JBool b
  | inl (inl (inl (inr n))) => JNum n
  | inl (inl (inr _)) => JNaN
  | inl (inr s) => JStr s
  | inr r => JObj r
  end.

#[global] Instance JsVal_countable : Countable JsVal.
Proof.
  apply (inj_countable' JsVal_code JsVal_decode).
  intros []; reflexivity.
Defined.

(** [ToBoolean]: the values that [!v] sends to [true] are [undefined],
    [null], [false], [0], [NaN] and the empty string. *)
Definition truthy (v : JsVal) : bool :=
  match v with
  | JUndefined | JNull | JNaN => false
  | JBool b => b
  | JNum n => negb (n =? 0)%Z
  | JStr s => match s with [] => false | _ => true end
  | JObj _ => true
  end.

(** [typeof v === "string"]. *)
Definition is_string (v : JsVal) : bool :=
  match v with JStr _ => true | _ => false end.

(** [v] is an object (an array included). *)
Definition is_object (v : JsVal) : bool :=
  match v with JObj _ => true | _ => false end.

(** [a || b]. *)
Definition js_or (a b : JsVal) : JsVal := if truthy a then a else b.

(** White space and line terminators, as [String.prototype.trim] strips
    them: TAB, LF, VT, FF, CR, SP, NBSP, the Unicode space separators,
    LS, PS and the byte order mark. *)
Definition is_white_space (c : N) : bool :=
  ((9 <=? c) && (c <=? 13) || (c =? 32) || (c =? 160) || (c =? 5760)
   || (8192 <=? c) && (c <=? 8202) || (c =? 8232) || (c =? 8233)
   || (c =? 8239) || (c =? 8287) || (c =? 12288) || (c =? 65279))%N.

Fixpoint trimStart (s : jsstring) : jsstring :=
  match s with
  | c :: s' => if is_white_space c then trimStart s' else s
  | [] => []
  end.

Definition trimEnd (s : jsstring) : jsstring := reverse (trimStart (reverse s)).

Definition trim (s : jsstring) : jsstring := trimEnd (trimStart s).

(** The argument of an event, as far as the handlers take it apart:
    nothing can be read from [undefined] and [null]; a boolean, number
    or string has none of the properties the handlers ask for; an object
    is the finite map of its own properties. *)
Inductive Payload : Type :=
| PlUndefined
| PlNull
| PlPrimitive
| PlObject (fields : gmap string JsVal).

(** [o.name] on an object: a missing property reads as [undefined]. *)
Definition get_field (name : string) (fields : gmap string JsVal) : JsVal :=
  default JUndefined (fields !! name).

(** ** Messages, events and acknowledgments *)

Record Msg : Type := mkMsg {
  msg_id : jsstring;
  msg_room : JsVal;
  msg_text : JsVal;
  msg_author : jsstring;
  msg_meta : JsVal;
  msg_ts : jsstring;
}.

#[global] Instance Msg_eq_dec : EqDecision Msg.
Proof. solve_decision. Defined.

Inductive Event : Type :=
| EvConnected (id username : jsstring)
| EvUserJoined (user : jsstring) (room : JsVal)
| EvUserLeft (user : jsstring) (room : JsVal)
| EvMessage (msg : Msg)
| EvTyping (user : jsstring) (room : JsVal) (isTyping : JsVal).

#[global] Instance Event_eq_dec : EqDecision Event.
Proof. solve_decision. Defined.

(** What a handler passes to the acknowledgment callback. *)
Inductive Ack : Type :=
| AckError (error : string)
| AckJoin (room : JsVal) (memberCount : nat) (history : list Msg)
| AckLeave (room : JsVal) (memberCount : nat)
| AckMessage (id : jsstring)
| AckHistory (room : JsVal) (history : list Msg).

(** One [emit]: the event and the sockets it is written to. *)
Record Emission : Type := mkEmission {
  recipients : gset jsstring;
  event : Event;
}.

Record Out : Type := mkOut {
  emitted : list Emission;
  ack : option Ack;
}.

(** The events that socket [p] receives, in order. *)
Definition observed (p : jsstring) (es : list Emission) : list Event :=
  event <$> filter (λ e, p ∈ recipients e) es.

(** [cb && cb(a)]: the acknowledgment is sent when the client asked for one. *)
Definition reply (cb : bool) (a : Ack) : option Ack :=
  if cb then Some a else None.

(** ** Server state *)

Record Socket : Type := mkSocket {
  sock_id : jsstring;
  sock_username : jsstring;
}.

Record Server : Type := mkServer {
  roomHistory : gmap JsVal (list Msg);
  sids : gmap jsstring (gset JsVal);
  sockets : gmap jsstring jsstring;
}.

Definition initial : Server :=
  {| roomHistory := ∅; sids := ∅; sockets := ∅ |}.

Definition ROOM_HISTORY_LIMIT : nat := 100.

(** [pushRoomMessage], on the history map alone. *)
Definition pushRoomMessage (room : JsVal) (msg : Msg)
    (h : gmap JsVal (list Msg)) : gmap JsVal (list Msg) :=
  let h1 := if decide (is_Some (h !! room)) then h else <[room := []]> h in
  let arr := default [] (h1 !! room) in
  let arr1 := arr ++ [msg] in
  let arr2 := if decide (ROOM_HISTORY_LIMIT < length arr1) then tail arr1 else arr1 in
  <[room := arr2]> h1.

(** [roomHistory.get(room) || []]. *)
Definition history_of (room : JsVal) (h : gmap JsVal (list Msg)) : list Msg :=
  default [] (h !! room).

(** ** The Socket.IO operations the handlers call

    [sids] is the adapter's table from a socket to the rooms it is in;
    the members of a room are read off it. A room is whatever value is
    used as its key: the strings that "join" lets through and the id of
    each socket, which names the room the socket is put in when it
    connects. *)

(** [socket.rooms]. *)
Definition socket_rooms (id : jsstring) (st : Server) : gset JsVal :=
  default ∅ (sids st !! id).

(** The sockets in [room]: the adapter's entry for that key, which is
    what [io.in(room).allSockets()] returns for a room that is not an
    array. *)
Definition allSockets (room : JsVal) (st : Server) : gset jsstring :=
  dom (filter (λ kv, room ∈ kv.2) (sids st)).

(** [socket.join(room)]. *)
Definition socket_join (id : jsstring) (room : JsVal) (st : Server) : Server :=
  {| roomHistory := roomHistory st;
     sids := <[id := socket_rooms id st ∪ {[room]}]> (sids st);
     sockets := sockets st |}.

(** [socket.leave(room)]. *)
Definition socket_leave (id : jsstring) (room : JsVal) (st : Server) : Server :=
  {| roomHistory := roomHistory st;
     sids := match sids st !! id with
             | Some rs => <[id := rs ∖ {[room]}]> (sids st)
             | None => sids st
             end;
     sockets := sockets st |}.

(** [socket.to(room).emit(ev)], for a room that is not an array: every
    socket in [room] but the sender. *)
Definition socket_to_emit (sock : Socket) (room : JsVal) (ev : Event)
    (st : Server) : Emission :=
  {| recipients := allSockets room st ∖ {[sock_id sock]}; event := ev |}.

(** [io.in(room).emit(ev)], for a room that is not an array: every
    socket in [room]. *)
Definition io_in_emit (room : JsVal) (ev : Event) (st : Server) : Emission :=
  {| recipients := allSockets room st; event := ev |}.

(** [socket.emit(ev)]: the socket itself. *)
Definition socket_emit (sock : Socket) (ev : Event) : Emission :=
  {| recipients := {[sock_id sock]}; event := ev |}.

(** Admission of a socket whose handshake passed: it is registered in the
    namespace with [socket.data.username] set and joins the room named
    by its own id, before the "connection" handler runs. *)
Definition accept_socket (sock : Socket) (st : Server) : Server :=
  {| roomHistory := roomHistory st;
     sids := <[sock_id sock := {[JStr (sock_id sock)]}]> (sids st);
     sockets := <[sock_id sock := sock_username sock]> (sockets st) |}.

(** Closing of a socket: it leaves all its rooms and is removed from the
    namespace, and only then is "disconnect" fired. The event that
    Socket.IO fires earlier, while [socket.rooms] is not empty yet, is
    "disconnecting". *)
Definition release_socket (sock : Socket) (st : Server) : Server :=
  {| roomHistory := roomHistory st;
     sids := delete (sock_id sock) (sids st);
     sockets := delete (sock_id sock) (sockets st) |}.

(** ** The handshake middleware and the handlers of server.js *)

(** [socket.handshake.auth && socket.handshake.auth.username]. Of a
    primitive [auth] only the truthiness of the result is observed: it is
    falsy, as [undefined] is. *)
Definition claimed_username (auth : Payload) : JsVal :=
  match auth with
  | PlUndefined => JUndefined
  | PlNull => JNull
  | PlPrimitive => JUndefined
  | PlObject fields => get_field "username" fields
  end.

(** [io.use]: [inl] is the error given to [next], [inr] the name stored
    in [socket.data.username]. *)
Definition io_use (auth : Payload) : string + jsstring :=
  let username := claimed_username auth in
  if negb (truthy username) then inl "invalid username"
  else match username with
       | JStr s =>
           if decide (trim s = []) then inl "invalid username"
           else inr (trim s)
       | _ => inl "invalid username"
       end.

(** The body of the "connection" handler, apart from the registration of
    the other handlers. *)
Definition on_connection (sock : Socket) (st : Server) : Server * Out :=
  (st, {| emitted := [socket_emit sock (EvConnected (sock_id sock) (sock_username sock))];
          ack := None |}).

Definition on_join (sock : Socket) (room : JsVal) (cb : bool)
    (st : Server) : Server * Out :=
  if negb (truthy room) || negb (is_string room) then
    (st, {| emitted := []; ack := reply cb (AckError "room required") |})
  else
    let st1 := socket_join (sock_id sock) room st in
    let e := socket_to_emit sock room (EvUserJoined (sock_username sock) room) st1 in
    let memberCount := size (allSockets room st1) in
    let history := history_of room (roomHistory st1) in
    (st1, {| emitted := [e]; ack := reply cb (AckJoin room memberCount history) |}).

Definition on_leave (sock : Socket) (room : JsVal) (cb : bool)
    (st : Server) : Server * Out :=
  let st1 := socket_leave (sock_id sock) room st in
  let e := socket_to_emit sock room (EvUserLeft (sock_username sock) room) st1 in
  (st1, {| emitted := [e];
           ack := reply cb (AckLeave room (size (allSockets room st1))) |}).

(** [payload || {}], as the map of its properties. *)
Definition payload_or_empty (payload : Payload) : gmap string JsVal :=
  match payload with
  | PlObject fields => fields
  | _ => ∅
  end.

(** [(payload || {}).name]. *)
Definition field_of (name : string) (payload : Payload) : JsVal :=
  get_field name (payload_or_empty payload).

(** The state with the history map replaced: the arrays of
    [roomHistory] are the only thing [pushRoomMessage] writes. *)
Definition set_history (h : gmap JsVal (list Msg)) (st : Server) : Server :=
  {| roomHistory := h; sids := sids st; sockets := sockets st |}.

(** The object literal [msg] of the "message" handler. [stamp] is
    [Date.now().toString(36)], [rnd] the six digits taken from
    [Math.random()], [ts] is [new Date().toISOString()]. *)
Definition new_message (user : jsstring) (room text meta : JsVal)
    (stamp rnd ts : jsstring) : Msg :=
  {| msg_id := stamp ++ str "-" ++ rnd;
     msg_room := room;
     msg_text := text;
     msg_author := user;
     msg_meta := js_or meta JNull;
     msg_ts := ts |}.

Definition on_message (sock : Socket) (payload : Payload) (cb : bool)
    (stamp rnd ts : jsstring) (st : Server) : Server * Out :=
  let room := field_of "room" payload in
  let text := field_of "text" payload in
  let meta := field_of "meta" payload in
  if negb (truthy room) || negb (truthy text) then
    (st, {| emitted := []; ack := reply cb (AckError "room & text required") |})
  else
    let msg := new_message (sock_username sock) room text meta stamp rnd ts in
    let st1 := set_history (pushRoomMessage room msg (roomHistory st)) st in
    (st1, {| emitted := [io_in_emit room (EvMessage msg) st1];
             ack := reply cb (AckMessage (msg_id msg)) |}).

(** What a handler throws. *)
Inductive Thrown : Type :=
| TypeError.

(** The "typing" handler takes its argument apart in its parameter list,
    [({ room, isTyping }) => ...]: that throws on [undefined] and [null],
    and nothing around the handler catches it. The state is not written. *)
Definition on_typing (sock : Socket) (payload : Payload)
    (st : Server) : Thrown + Out :=
  match payload with
  | PlUndefined | PlNull => inl TypeError
  | _ =>
      let room := field_of "room" payload in
      let isTyping := field_of "isTyping" payload in
      if negb (truthy room) then inr {| emitted := []; ack := None |}
      else
        inr {| emitted := [socket_to_emit sock room
                 (EvTyping (sock_username sock) room (JBool (truthy isTyping))) st];
               ack := None |}
  end.

Definition on_history (room : JsVal) (cb : bool) (st : Server) : Server * Out :=
  (st, {| emitted := [];
          ack := reply cb (AckHistory room (history_of room (roomHistory st))) |}).

(** The "disconnect" handler: one "user_left" for each room of
    [socket.rooms] other than the socket's own. *)
Definition on_disconnect (sock : Socket) (st : Server) : Out :=
  {| emitted :=
       (λ room, socket_to_emit sock room (EvUserLeft (sock_username sock) room) st)
         <$> filter (λ room, room ≠ JStr (sock_id sock))
               (elements (socket_rooms (sock_id sock) st));
     ack := None |}.

(** ** The server as a transition system *)

(** A connection attempt: refused by the middleware, or admitted and
    handed to the "connection" handler. *)
Definition connect (id : jsstring) (auth : Payload) (st : Server)
    : string + (Socket * Server * Out) :=
  match io_use auth with
  | inl err => inl err
  | inr username =>
      let sock := {| sock_id := id; sock_username := username |} in
      let '(st1, out) := on_connection sock (accept_socket sock st) in
      inr (sock, st1, out)
  end.

(** The end of a connection: the socket is released, then "disconnect"
    is dispatched to the handler. *)
Definition close (sock : Socket) (st : Server) : Server * Out :=
  let st1 := release_socket sock st in
  (st1, on_disconnect sock st1).

Inductive Request : Type :=
| ReqJoin (room : JsVal) (cb : bool)
| ReqLeave (room : JsVal) (cb : bool)
| ReqMessage (payload : Payload) (cb : bool) (stamp rnd ts : jsstring)
| ReqTyping (payload : Payload)
| ReqHistory (room : JsVal) (cb : bool).

Definition no_out : Out := {| emitted := []; ack := None |}.

(** One request of a connected socket. A handler that throws has not
    written the state; what Node then does with the uncaught exception is
    not part of the model. *)
Definition handle (sock : Socket) (req : Request) (st : Server) : Server * Out :=
  match req with
  | ReqJoin room cb => on_join sock room cb st
  | ReqLeave room cb => on_leave sock room cb st
  | ReqMessage payload cb stamp rnd ts => on_message sock payload cb stamp rnd ts st
  | ReqTyping payload =>
      match on_typing sock payload st with
      | inl _ => (st, no_out)
      | inr out => (st, out)
      end
  | ReqHistory room cb => on_history room cb st
  end.

Inductive Input : Type :=
| InConnect (id : jsstring) (auth : Payload)
| InRequest (sock : Socket) (req : Request)
| InClose (sock : Socket).

(** The socket is registered in the namespace, under its name. *)
Definition connected (sock : Socket) (st : Server) : Prop :=
  sockets st !! sock_id sock = Some (sock_username sock).

#[global] Instance connected_dec sock st : Decision (connected sock st).
Proof. unfold connected. apply _. Defined.

(** One input of the server. Socket.IO gives a new connection an id that
    is not in use, and dispatches requests and "disconnect" only for a
    socket that is connected: any other input is not an event of the
    server and leaves the state as it is. *)
Definition step (st : Server) (i : Input) : Server :=
  match i with
  | InConnect id auth =>
      if decide (is_Some (sockets st !! id)) then st
      else match connect id auth st with
           | inl _ => st
           | inr (_, st1, _) => st1
           end
  | InRequest sock req =>
      if decide (connected sock st) then (handle sock req st).1 else st
  | InClose sock =>
      if decide (connected sock st) then (close sock st).1 else st
  end.

Definition run (inputs : list Input) (st : Server) : Server :=
  foldl step st inputs.

(** The adapter and the namespace know the same sockets, and every room
    a socket is in is named by a string. *)
Definition well_formed (st : Server) : Prop :=
  dom (sids st) = dom (sockets st)
  ∧ ∀ id room, room ∈ socket_rooms id st → is_string room = true.

(** ** Sequences of appends to the history *)

(** What one [push] followed by the conditional [shift] does to the array. *)
Definition push_shift (arr : list Msg) (msg : Msg) : list Msg :=
  if decide (ROOM_HISTORY_LIMIT < length (arr ++ [msg]))
  then tail (arr ++ [msg]) else arr ++ [msg].

(** Every array of the store is within the limit. *)
Definition history_bounded (h : gmap JsVal (list Msg)) : Prop :=
  ∀ room, length (history_of room h) ≤ ROOM_HISTORY_LIMIT.

(** A sequence of appends, each to a room of its own. *)
Definition push_each (appends : list (JsVal * Msg))
    (h : gmap JsVal (list Msg)) : gmap JsVal (list Msg) :=
  foldl (λ h' a, pushRoomMessage a.1 a.2 h') h appends.

(** A sequence of appends to one room. *)
Definition push_all (room : JsVal) (msgs : list Msg)
    (h : gmap JsVal (list Msg)) : gmap JsVal (list Msg) :=
  foldl (λ h' msg, pushRoomMessage room msg h') h msgs.

(** ** The statements of the specification that the code is compared with *)

(** The outcome of a request that was turned down: nothing written,
    nothing emitted, the error acknowledged. *)
Definition rejected (error : string) (cb : bool) (st : Server)
    (res : Server * Out) : Prop :=
  res = (st, {| emitted := []; ack := reply cb (AckError error) |}).

(** A required field as the specification has it: a non-empty string. *)
Definition non_empty_string (v : JsVal) : bool := is_string v && truthy v.

(** "Every message request whose room or text is missing, empty or not a
    string is acknowledged with an error, appends nothing and emits
    nothing." *)
Definition malformed_message_rejected (sock : Socket) (payload : Payload)
    (cb : bool) (stamp rnd ts : jsstring) (st : Server) : Prop :=
  non_empty_string (field_of "room" payload)
    && non_empty_string (field_of "text" payload) = false →
  rejected "room & text required" cb st
    (on_message sock payload cb stamp rnd ts st).

(** "An acknowledged message is in the room's history with the sender as
    author, and is delivered to the sender, to every other member of the
    room and to nobody else." *)
Definition message_round_trip (sock : Socket) (room text : jsstring)
    (cb : bool) (stamp rnd ts : jsstring) (st : Server) : Prop :=
  let res := on_message sock
               (PlObject {[ "room" := JStr room; "text" := JStr text ]})
               cb stamp rnd ts st in
  ∀ id, ack res.2 = Some (AckMessage id) →
    ∃ msg, msg ∈ history_of (JStr room) (roomHistory res.1)
      ∧ msg_author msg = sock_username sock
      ∧ msg_room msg = JStr room
      ∧ msg_text msg = JStr text
      ∧ ∀ p, observed p (emitted res.2) =
               if decide (p ∈ {[sock_id sock]} ∪ allSockets (JStr room) st)
               then [EvMessage msg] else [].

(** "A second leave in a row succeeds with the same member count and is
    a no-op: no further user_left reaches the members that remain." *)
Definition second_leave_silent (sock : Socket) (room : JsVal) (cb : bool)
    (st : Server) : Prop :=
  let first := on_leave sock room cb st in
  let second := on_leave sock room cb first.1 in
  second.1 = first.1
  ∧ ack second.2 = ack first.2
  ∧ ∀ p, observed p (emitted second.2) = [].

(** How often [ev] occurs in a list of events. *)
Definition count_event (ev : Event) (evs : list Event) : nat :=
  length (filter (λ e, e = ev) evs).

(** ** Sample sessions, for the statements that are evaluated *)

Definition alice : Socket := {| sock_id := str "s1"; sock_username := str "alice" |}.
Definition bob : Socket := {| sock_id := str "s2"; sock_username := str "bob" |}.
Definition lobby : JsVal := JStr (str "lobby").

(** Both are connected; then bob joins the lobby; then alice does. *)
Definition two_connected : Server :=
  run [InConnect (str "s1") (PlObject {[ "username" := JStr (str "alice") ]});
       InConnect (str "s2") (PlObject {[ "username" := JStr (str " bob ") ]})]
    initial.

Definition bob_in_lobby : Server :=
  run [InRequest bob (ReqJoin lobby true)] two_connected.

Definition both_in_lobby : Server :=
  run [InRequest alice (ReqJoin lobby true)] bob_in_lobby.

(** Requests to the lobby: a greeting, one with an empty text, one whose
    text is a number. *)
Definition say_hi : Payload :=
  PlObject {[ "room" := lobby; "text" := JStr (str "hi") ]}.
Definition say_nothing : Payload :=
  PlObject {[ "room" := lobby; "text" := JStr [] ]}.
Definition say_five : Payload :=
  PlObject {[ "room" := lobby; "text" := JNum 5 ]}.

(** The [i]-th message of a numbered sequence sent to the lobby. *)
Definition numbered (i : nat) : Msg :=
  {| msg_id := str "m-" ++ [N.of_nat i];
     msg_room := lobby;
     msg_text := JNum (Z.of_nat i);
     msg_author := str "alice";
     msg_meta := JNull;
     msg_ts := str "2024-01-01T00:00:00.000Z" |}.

(** ** What the further properties are stated with *)

(** A stored message as the "message" handler files it: under the room
    it names, with a room and a text that passed the guard, and with a
    [meta] that is the client's when truthy and [null] otherwise. *)
Definition well_filed (room : JsVal) (m : Msg) : Prop :=
  msg_room m = room
  ∧ truthy room = true
  ∧ truthy (msg_text m) = true
  ∧ (msg_meta m = JNull ∨ truthy (msg_meta m) = true).

(** Every entry of every array of the store is well filed. *)
Definition all_well_filed (h : gmap JsVal (list Msg)) : Prop :=
  ∀ room m, m ∈ history_of room h → well_filed room m.

(** A name as the middleware lets it in: not empty, and with no white
    space left to trim. *)
Definition admitted_name (u : jsstring) : Prop := u ≠ [] ∧ trim u = u.

(** The names of the registered sockets and the authors of the stored
    messages are all admitted names. *)
Definition names_admitted (st : Server) : Prop :=
  (∀ id u, sockets st !! id = Some u → admitted_name u)
  ∧ (∀ room m, m ∈ history_of room (roomHistory st) → admitted_name (msg_author m)).

(** A second room, and the inputs that lead to [both_in_lobby]. *)
Definition den : JsVal := JStr (str "den").

Definition lobby_inputs : list Input :=
  [InConnect (str "s1") (PlObject {[ "username" := JStr (str "alice") ]});
   InConnect (str "s2") (PlObject {[ "username" := JStr (str " bob ") ]});
   InRequest bob (ReqJoin lobby true);
   InRequest alice (ReqJoin lobby true)].

(** A greeting with a falsy [meta], a greeting to a room named by a
    number, and typing notices with and without a room. *)
Definition say_hi_meta0 : Payload :=
  PlObject {[ "room" := lobby; "text" := JStr (str "hi"); "meta" := JNum 0 ]}.
Definition say_hi_to_5 : Payload :=
  PlObject {[ "room" := JNum 5; "text" := JStr (str "hi") ]}.
Definition typing_in_lobby : Payload :=
  PlObject {[ "room" := lobby; "isTyping" := JNum 1 ]}.
Definition typing_nowhere : Payload :=
  PlObject {[ "isTyping" := JBool true ]}.

(** * Properties *)

(** ** The bounded history *)

Section History.
Implicit Types (h : gmap JsVal (list Msg)) (room : JsVal) (msg : Msg).
Implicit Types (arr msgs : list Msg).

Lemma pushRoomMessage_lookup room msg h :
  pushRoomMessage room msg h !! room = Some (push_shift (history_of room h) msg).
Proof.
  unfold pushRoomMessage, push_shift, history_of.
  rewrite lookup_insert_eq. f_equal.
  destruct (decide (is_Some (h !! room))) as [[arr Harr]|Hnone].
  - by rewrite Harr.
  - apply eq_None_not_Some in Hnone. by rewrite Hnone, lookup_insert_eq.
Qed.

Lemma pushRoomMessage_lookup_ne room room' msg h :
  room ≠ room' → pushRoomMessage room msg h !! room' = h !! room'.
Proof.
  intros Hne. unfold pushRoomMessage.
  rewrite lookup_insert_ne by done.
  destruct (decide (is_Some (h !! room))); [done|].
  by rewrite lookup_insert_ne.
Qed.

Lemma history_of_push room msg h :
  history_of room (pushRoomMessage room msg h) = push_shift (history_of room h) msg.
Proof. unfold history_of at 1. by rewrite pushRoomMessage_lookup. Qed.

Lemma history_of_push_ne room room' msg h :
  room ≠ room' →
  history_of room' (pushRoomMessage room msg h) = history_of room' h.
Proof. intros Hne. unfold history_of. by rewrite pushRoomMessage_lookup_ne. Qed.

Lemma length_push_shift arr msg :
  length arr ≤ ROOM_HISTORY_LIMIT →
  length (push_shift arr msg) ≤ ROOM_HISTORY_LIMIT.
Proof.
  unfold push_shift, ROOM_HISTORY_LIMIT. intros Hlen.
  case_decide as Hgt; [|lia].
  rewrite length_app in Hgt. simpl in Hgt.
  destruct arr as [|m0 arr]; simpl in *; [lia|].
  rewrite length_app. simpl. lia.
Qed.

Lemma push_shift_last arr msg : last (push_shift arr msg) = Some msg.
Proof.
  unfold push_shift. case_decide as Hgt; [|apply last_snoc].
  destruct arr as [|m0 arr]; simpl.
  - unfold ROOM_HISTORY_LIMIT in Hgt. simpl in Hgt. lia.
  - apply last_snoc.
Qed.

Lemma history_bounded_empty : history_bounded ∅.
Proof. intros room. unfold history_of. rewrite lookup_empty. simpl. lia. Qed.

Lemma history_bounded_push room msg h :
  history_bounded h → history_bounded (pushRoomMessage room msg h).
Proof.
  intros Hb room'. destruct (decide (room = room')) as [<-|Hne].
  - rewrite history_of_push. apply length_push_shift, Hb.
  - rewrite history_of_push_ne by done. apply Hb.
Qed.

Lemma history_bounded_push_each appends h :
  history_bounded h → history_bounded (push_each appends h).
Proof.
  revert h. induction appends as [|[room msg] appends IH]; intros h Hb; [done|].
  apply IH, history_bounded_push, Hb.
Qed.

Lemma history_of_push_all room msgs h :
  history_of room (push_all room msgs h) = foldl push_shift (history_of room h) msgs.
Proof.
  unfold push_all. revert h.
  induction msgs as [|msg msgs IH]; intros h; [done|].
  simpl. by rewrite IH, history_of_push.
Qed.

(** Appending to an array within the limit keeps the last
    [ROOM_HISTORY_LIMIT] entries of the whole sequence, in order. *)
Lemma foldl_push_shift arr msgs :
  length arr ≤ ROOM_HISTORY_LIMIT →
  foldl push_shift arr msgs =
    drop (length (arr ++ msgs) - ROOM_HISTORY_LIMIT) (arr ++ msgs).
Proof.
  revert arr. induction msgs as [|msg msgs IH]; intros arr Hlen.
  - rewrite app_nil_r. replace (length arr - ROOM_HISTORY_LIMIT) with 0 by lia.
    done.
  - simpl. rewrite IH by (by apply length_push_shift).
    unfold push_shift. case_decide as Hgt.
    + destruct arr as [|m0 arr].
      { unfold ROOM_HISTORY_LIMIT in Hgt. simpl in Hgt. lia. }
      change (tail ((m0 :: arr) ++ [msg])) with (arr ++ [msg]).
      rewrite <- (app_assoc arr [msg] msgs).
      change ((m0 :: arr) ++ msg :: msgs) with (m0 :: (arr ++ [msg] ++ msgs)).
      assert (ROOM_HISTORY_LIMIT ≤ length (arr ++ [msg] ++ msgs)) as Hge.
      { rewrite length_app in Hgt. rewrite !length_app. simpl in *. lia. }
      rewrite (length_cons m0).
      replace (S (length (arr ++ [msg] ++ msgs)) - ROOM_HISTORY_LIMIT)
        with (S (length (arr ++ [msg] ++ msgs) - ROOM_HISTORY_LIMIT)) by lia.
      done.
    + by rewrite <- (app_assoc arr [msg] msgs).
Qed.

End History.

(** ** Rooms and their members *)

Section Membership.
Implicit Types (id p : jsstring) (room : JsVal) (st : Server) (sock : Socket).

Lemma elem_of_allSockets id room st :
  id ∈ allSockets room st ↔ room ∈ socket_rooms id st.
Proof.
  unfold allSockets, socket_rooms. rewrite elem_of_dom. split.
  - intros [rs Hrs]. apply map_lookup_filter_Some in Hrs as [Hl Hin].
    by rewrite Hl.
  - intros Hin. destruct (sids st !! id) as [rs|] eqn:Hl; simpl in Hin.
    + exists rs. by apply map_lookup_filter_Some.
    + set_solver.
Qed.

Lemma socket_rooms_join id id' room st :
  socket_rooms id' (socket_join id room st) =
    if decide (id = id') then socket_rooms id st ∪ {[room]} else socket_rooms id' st.
Proof.
  unfold socket_rooms at 1. simpl. case_decide as Heq.
  - subst. by rewrite lookup_insert_eq.
  - by rewrite lookup_insert_ne.
Qed.

Lemma socket_rooms_leave id id' room st :
  socket_rooms id' (socket_leave id room st) =
    if decide (id = id') then socket_rooms id st ∖ {[room]} else socket_rooms id' st.
Proof.
  unfold socket_rooms, socket_leave. simpl.
  destruct (sids st !! id) as [rs|] eqn:Hl; case_decide as Heq; subst.
  - by rewrite lookup_insert_eq.
  - by rewrite lookup_insert_ne.
  - rewrite Hl. simpl. set_solver.
  - done.
Qed.

Lemma socket_rooms_release sock id st :
  socket_rooms id (release_socket sock st) =
    if decide (sock_id sock = id) then ∅ else socket_rooms id st.
Proof.
  unfold socket_rooms, release_socket. simpl. case_decide as Heq.
  - subst. by rewrite lookup_delete_eq.
  - by rewrite lookup_delete_ne.
Qed.

Lemma allSockets_join id room room' st :
  allSockets room' (socket_join id room st) =
    if decide (room = room') then allSockets room' st ∪ {[id]} else allSockets room' st.
Proof.
  apply set_eq. intros p. rewrite elem_of_allSockets, socket_rooms_join.
  repeat case_decide; subst;
    rewrite ?elem_of_union, ?elem_of_singleton, ?elem_of_allSockets;
    naive_solver.
Qed.

Lemma allSockets_leave id room room' st :
  allSockets room' (socket_leave id room st) =
    if decide (room = room') then allSockets room' st ∖ {[id]} else allSockets room' st.
Proof.
  apply set_eq. intros p. rewrite elem_of_allSockets, socket_rooms_leave.
  repeat case_decide; subst;
    rewrite ?elem_of_difference, ?elem_of_singleton, ?elem_of_allSockets;
    naive_solver.
Qed.

Lemma allSockets_release sock room st :
  allSockets room (release_socket sock st) = allSockets room st ∖ {[sock_id sock]}.
Proof.
  apply set_eq. intros p. rewrite elem_of_allSockets, socket_rooms_release.
  rewrite elem_of_difference, elem_of_singleton, elem_of_allSockets.
  case_decide; set_solver.
Qed.

Lemma socket_leave_idemp id room st :
  socket_leave id room (socket_leave id room st) = socket_leave id room st.
Proof.
  unfold socket_leave. simpl.
  destruct (sids st !! id) as [rs|] eqn:Hl; simpl.
  - rewrite lookup_insert_eq, insert_insert_eq.
    replace (rs ∖ {[room]} ∖ {[room]}) with (rs ∖ {[room]}) by set_solver.
    done.
  - by rewrite Hl.
Qed.

Lemma observed_singleton p (e : Emission) :
  observed p [e] = if decide (p ∈ recipients e) then [event e] else [].
Proof.
  unfold observed. rewrite filter_cons, filter_nil. by case_decide.
Qed.

End Membership.

(** ** The states the server reaches *)

Section Reachable.
Implicit Types (st : Server) (sock : Socket) (room : JsVal) (id : jsstring).

Lemma well_formed_initial : well_formed initial.
Proof.
  split; [done|]. intros id room. unfold socket_rooms. simpl.
  rewrite lookup_empty. set_solver.
Qed.

Lemma well_formed_accept sock st :
  well_formed st → well_formed (accept_socket sock st).
Proof.
  intros [Hdom Hstr]. split.
  - simpl. rewrite !dom_insert_L. by rewrite Hdom.
  - intros id room. unfold socket_rooms. simpl.
    destruct (decide (sock_id sock = id)) as [<-|Hne].
    + rewrite lookup_insert_eq. simpl. intros ->%elem_of_singleton. done.
    + rewrite lookup_insert_ne by done. apply Hstr.
Qed.

Lemma well_formed_release sock st :
  well_formed st → well_formed (release_socket sock st).
Proof.
  intros [Hdom Hstr]. split.
  - simpl. rewrite !dom_delete_L. by rewrite Hdom.
  - intros id room. rewrite socket_rooms_release. case_decide; [set_solver|].
    apply Hstr.
Qed.

Lemma well_formed_join sock room st :
  connected sock st → is_string room = true →
  well_formed st → well_formed (socket_join (sock_id sock) room st).
Proof.
  intros Hconn Hs [Hdom Hstr]. split.
  - simpl. rewrite dom_insert_L, Hdom.
    assert (sock_id sock ∈ dom (sockets st)) by (apply elem_of_dom; by eexists).
    set_solver.
  - intros id r. rewrite socket_rooms_join. case_decide; [|apply Hstr].
    intros [Hin| ->%elem_of_singleton]%elem_of_union; [|done].
    by apply (Hstr (sock_id sock)).
Qed.

Lemma well_formed_leave id room st :
  well_formed st → well_formed (socket_leave id room st).
Proof.
  intros [Hdom Hstr]. split.
  - unfold socket_leave. simpl. destruct (sids st !! id) as [rs|] eqn:Hl; [|done].
    rewrite dom_insert_L, <- Hdom.
    assert (id ∈ dom (sids st)) by (apply elem_of_dom; by eexists).
    set_solver.
  - intros id' r. rewrite socket_rooms_leave. case_decide; [|apply Hstr].
    intros [Hin _]%elem_of_difference. by apply (Hstr id).
Qed.

Lemma step_well_formed st (i : Input) : well_formed st → well_formed (step st i).
Proof.
  intros Hwf. destruct i as [id auth|sock req|sock]; simpl.
  - case_decide; [done|]. unfold connect. destruct (io_use auth); [done|].
    by apply well_formed_accept.
  - case_decide as Hconn; [|done].
    destruct req as [room cb|room cb|payload cb stamp rnd ts|payload|room cb]; simpl.
    + unfold on_join. destruct (truthy room), (is_string room) eqn:Hs; simpl; try done.
      by apply well_formed_join.
    + by apply well_formed_leave.
    + unfold on_message. by case_match.
    + by destruct (on_typing sock payload st).
    + done.
  - case_decide; [|done]. by apply well_formed_release.
Qed.

Lemma run_well_formed (inputs : list Input) : well_formed (run inputs initial).
Proof.
  assert (∀ st, well_formed st → well_formed (run inputs st)) as Hrun.
  { unfold run. induction inputs as [|i inputs IH]; intros st Hwf; [done|].
    apply IH, step_well_formed, Hwf. }
  apply Hrun, well_formed_initial.
Qed.

(** On a reachable state the adapter has no socket under a key that is
    not a string. *)
Lemma no_socket_in_unnamed_room (inputs : list Input) room :
  is_string room = false → allSockets room (run inputs initial) = ∅.
Proof.
  intros Hns. apply set_eq. intros id. rewrite elem_of_allSockets.
  split; [|set_solver]. intros Hin.
  apply (proj2 (run_well_formed inputs)) in Hin. congruence.
Qed.

End Reachable.

(** ** The claims about the history *)

(** C1. For every room and every sequence of appends to a store that
    starts empty, the array kept for the room holds at most
    [ROOM_HISTORY_LIMIT] = 100 entries after each [pushRoomMessage] call,
    that is, after every prefix of the sequence. *)
Theorem history_never_exceeds_limit (appends : list (JsVal * Msg)) (n : nat)
    (room : JsVal) :
  ROOM_HISTORY_LIMIT = 100
  ∧ length (history_of room (push_each (take n appends) ∅)) ≤ ROOM_HISTORY_LIMIT.
Proof.
  split; [reflexivity|].
  apply history_bounded_push_each, history_bounded_empty.
Qed.

(** The same bound on every state the server reaches, whatever the
    connections, requests and disconnections it is given. *)
Lemma step_history_bounded (st : Server) (i : Input) :
  history_bounded (roomHistory st) → history_bounded (roomHistory (step st i)).
Proof.
  intros Hb. destruct i as [id auth|sock req|sock]; simpl.
  - case_decide; [done|]. unfold connect. by destruct (io_use auth).
  - case_decide; [|done].
    destruct req as [room cb|room cb|payload cb stamp rnd ts|payload|room cb]; simpl.
    + unfold on_join. by case_match.
    + done.
    + unfold on_message. case_match; simpl; [done|].
      by apply history_bounded_push.
    + by destruct (on_typing sock payload st).
    + done.
  - by case_decide.
Qed.

Lemma run_history_bounded (inputs : list Input) (room : JsVal) :
  length (history_of room (roomHistory (run inputs initial))) ≤ ROOM_HISTORY_LIMIT.
Proof.
  assert (∀ st, history_bounded (roomHistory st) →
                history_bounded (roomHistory (run inputs st))) as Hrun.
  { unfold run. induction inputs as [|i inputs IH]; intros st Hb; [done|].
    apply IH, step_history_bounded, Hb. }
  apply Hrun, history_bounded_empty.
Qed.

(** C5. Appending 101 messages, an oldest one followed by 100 others, to
    a room without history leaves exactly the 100 others, in the order
    they were sent, and the "history" handler answers the client that
    asked for an acknowledgment with that sequence (and sends nothing
    when the client gave no callback). *)
Theorem capacity_eviction (room : JsVal) (oldest : Msg) (kept : list Msg)
    (cb : bool) (st : Server) :
  roomHistory st !! room = None →
  length kept = 100 →
  history_of room (push_all room (oldest :: kept) (roomHistory st)) = kept
  ∧ on_history room cb
      (set_history (push_all room (oldest :: kept) (roomHistory st)) st) =
      (set_history (push_all room (oldest :: kept) (roomHistory st)) st,
       {| emitted := [];
          ack := if cb then Some (AckHistory room kept) else None |}).
Proof.
  intros Hfresh Hlen.
  assert (history_of room (push_all room (oldest :: kept) (roomHistory st)) = kept)
    as Hkept.
  { rewrite history_of_push_all.
    unfold history_of at 1. rewrite Hfresh. simpl default.
    rewrite foldl_push_shift by (simpl; lia).
    change ([] ++ oldest :: kept) with (oldest :: kept).
    rewrite length_cons, Hlen. reflexivity. }
  split; [done|]. unfold on_history.
  change (roomHistory (set_history ?h st)) with h. rewrite Hkept.
  by destruct cb.
Qed.

Lemma capacity_eviction_witness :
  roomHistory initial !! lobby = None
  ∧ length (numbered <$> seq 1 100) = 100
  ∧ history_of lobby
      (push_all lobby (numbered 0 :: (numbered <$> seq 1 100)) (roomHistory initial))
    = numbered <$> seq 1 100
  ∧ on_history lobby true
      (set_history
         (push_all lobby (numbered 0 :: (numbered <$> seq 1 100)) (roomHistory initial))
         initial) =
      (set_history
         (push_all lobby (numbered 0 :: (numbered <$> seq 1 100)) (roomHistory initial))
         initial,
       {| emitted := [];
          ack := Some (AckHistory lobby (numbered <$> seq 1 100)) |}).
Proof.
  split; [reflexivity|]. split; [reflexivity|].
  apply (capacity_eviction lobby (numbered 0) (numbered <$> seq 1 100) true initial);
    reflexivity.
Defined.

Example eviction_of_the_first_of_101 :
  history_of lobby (push_all lobby (numbered <$> seq 0 101) ∅) = numbered <$> seq 1 100.
Proof. vm_compute. reflexivity. Qed.

(** ** The claims about joining *)

(** C8. A join whose room is empty or not a string is acknowledged with
    an error and changes nothing: the state is the one before, so the
    session has joined no room, and no event is emitted. The
    acknowledgment goes to the callback when the client gave one. *)
Theorem join_rejects_bad_room (sock : Socket) (room : JsVal) (cb : bool)
    (st : Server) :
  room = JStr [] ∨ is_string room = false →
  on_join sock room cb st =
    (st, {| emitted := []; ack := reply cb (AckError "room required") |}).
Proof.
  intros [->|Hns]; unfold on_join.
  - reflexivity.
  - rewrite Hns. simpl. by rewrite orb_true_r.
Qed.

Lemma join_rejects_bad_room_witness :
  (is_string (JNum 7) = false)
  ∧ on_join alice (JNum 7) true two_connected =
      (two_connected, {| emitted := []; ack := Some (AckError "room required") |})
  ∧ on_join alice (JStr []) true two_connected =
      (two_connected, {| emitted := []; ack := Some (AckError "room required") |}).
Proof.
  split; [reflexivity|]. split.
  - apply (join_rejects_bad_room alice (JNum 7) true two_connected).
    right. reflexivity.
  - apply (join_rejects_bad_room alice (JStr []) true two_connected).
    left. reflexivity.
Defined.

(** C7. A join with a non-empty string as room succeeds: afterwards the
    session is a member of the room, and the member count acknowledged
    is the size of a set that contains the session itself, hence at
    least 1. *)
Theorem join_counts_the_joiner (sock : Socket) (room : JsVal) (cb : bool)
    (st : Server) :
  is_string room = true →
  truthy room = true →
  room ∈ socket_rooms (sock_id sock) (on_join sock room cb st).1
  ∧ sock_id sock ∈ allSockets room (on_join sock room cb st).1
  ∧ ack (on_join sock room cb st).2 =
      reply cb (AckJoin room (size (allSockets room (on_join sock room cb st).1))
                  (history_of room (roomHistory st)))
  ∧ 1 ≤ size (allSockets room (on_join sock room cb st).1).
Proof.
  intros Hs Ht. unfold on_join. rewrite Hs, Ht. simpl.
  assert (sock_id sock ∈ allSockets room (socket_join (sock_id sock) room st)) as Hin.
  { rewrite allSockets_join. rewrite decide_True by done. set_solver. }
  split; [by apply elem_of_allSockets|]. split; [done|]. split; [done|].
  destruct (decide (size (allSockets room (socket_join (sock_id sock) room st)) = 0))
    as [Hz|Hnz]; [|lia].
  apply size_empty_iff in Hz. set_solver.
Qed.

Lemma join_counts_the_joiner_witness :
  is_string lobby = true
  ∧ truthy lobby = true
  ∧ str "s1" ∈ allSockets lobby (on_join alice lobby true bob_in_lobby).1
  ∧ ack (on_join alice lobby true bob_in_lobby).2 = Some (AckJoin lobby 2 [])
  ∧ 1 ≤ size (allSockets lobby (on_join alice lobby true bob_in_lobby).1).
Proof.
  split; [reflexivity|]. split; [reflexivity|].
  destruct (join_counts_the_joiner alice lobby true bob_in_lobby)
    as (_ & Hin & Hack & Hsize); [reflexivity|reflexivity|].
  split; [exact Hin|]. split; [|exact Hsize].
  rewrite Hack. vm_compute. reflexivity.
Defined.

(** ** The claims about leaving *)

Lemma on_leave_state (sock : Socket) (room : JsVal) (cb : bool) (st : Server) :
  (on_leave sock room cb st).1 = socket_leave (sock_id sock) room st.
Proof. reflexivity. Qed.

(** C6, as the code has it. For a room named by a string, a second leave
    in a row changes no state and is acknowledged with the same member
    count as the first, but it is not silent: the handler emits
    "user_left" again, to the same recipients as the first call, which
    are all the sockets that remain in the room. *)
Theorem second_leave_repeats_first (sock : Socket) (room : JsVal) (cb : bool)
    (st : Server) :
  is_string room = true →
  let first := on_leave sock room cb st in
  let second := on_leave sock room cb first.1 in
  second.1 = first.1
  ∧ ack second.2 = ack first.2
  ∧ ack second.2 =
      (if cb then Some (AckLeave room (size (allSockets room first.1))) else None)
  ∧ emitted second.2 =
      [{| recipients := allSockets room first.1;
          event := EvUserLeft (sock_username sock) room |}].
Proof.
  intros _ first second. subst first second.
  unfold on_leave. simpl. rewrite !socket_leave_idemp.
  split; [done|]. split; [done|]. split; [by destruct cb|].
  unfold socket_to_emit. do 2 f_equal.
  rewrite allSockets_leave, decide_True by done. set_solver.
Qed.

Lemma second_leave_repeats_first_witness :
  is_string lobby = true
  ∧ (on_leave alice lobby true (on_leave alice lobby true both_in_lobby).1).1
    = (on_leave alice lobby true both_in_lobby).1
  ∧ ack (on_leave alice lobby true (on_leave alice lobby true both_in_lobby).1).2
    = Some (AckLeave lobby 1)
  ∧ emitted (on_leave alice lobby true (on_leave alice lobby true both_in_lobby).1).2
    = [{| recipients := {[str "s2"]}; event := EvUserLeft (str "alice") lobby |}].
Proof.
  split; [reflexivity|].
  destruct (second_leave_repeats_first alice lobby true both_in_lobby)
    as (Hstate & _ & Hack & Hemit); [reflexivity|].
  split; [exact Hstate|]. split.
  - rewrite Hack. vm_compute. reflexivity.
  - rewrite Hemit. vm_compute. reflexivity.
Defined.

(** C6, as stated, fails: bob is in the lobby when alice leaves it twice,
    and he receives "user_left" the second time too. *)
Lemma second_leave_notifies_again :
  str "s2" ∈ allSockets lobby both_in_lobby
  ∧ observed (str "s2")
      (emitted (on_leave alice lobby true
                  (on_leave alice lobby true both_in_lobby).1).2)
    = [EvUserLeft (str "alice") lobby]
  ∧ ¬ second_leave_silent alice lobby true both_in_lobby.
Proof.
  split; [by vm_compute|]. split; [by vm_compute|].
  intros (_ & _ & Hsilent). specialize (Hsilent (str "s2")).
  vm_compute in Hsilent. discriminate Hsilent.
Qed.

(** ** The claims about messages *)

(** C9, as the code has it. The guard of the "message" handler tests
    presence, not type: a request whose room or text is missing or falsy
    (no payload at all, [undefined], [null], the empty string, [0],
    [false], [NaN]) is acknowledged with an error, appends nothing to
    any history and emits nothing. *)
Theorem message_rejects_missing_field (sock : Socket) (payload : Payload)
    (cb : bool) (stamp rnd ts : jsstring) (st : Server) :
  truthy (field_of "room" payload) = false
  ∨ truthy (field_of "text" payload) = false →
  on_message sock payload cb stamp rnd ts st =
    (st, {| emitted := []; ack := reply cb (AckError "room & text required") |}).
Proof.
  intros Hfalsy. unfold on_message.
  destruct Hfalsy as [-> | ->]; simpl; by rewrite ?orb_true_r.
Qed.

Lemma message_rejects_missing_field_witness :
  truthy (field_of "text" say_nothing) = false
  ∧ on_message alice say_nothing true (str "k0") (str "abcdef") (str "t0")
      both_in_lobby =
      (both_in_lobby,
       {| emitted := []; ack := reply true (AckError "room & text required") |}).
Proof.
  split; [reflexivity|].
  apply (message_rejects_missing_field alice say_nothing true).
  right. reflexivity.
Defined.

(** Conversely, whatever is truthy passes the guard. *)
Lemma message_accepts_truthy_fields (sock : Socket) (payload : Payload)
    (cb : bool) (stamp rnd ts : jsstring) (st : Server) :
  truthy (field_of "room" payload) = true →
  truthy (field_of "text" payload) = true →
  ack (on_message sock payload cb stamp rnd ts st).2 =
    reply cb (AckMessage (stamp ++ str "-" ++ rnd)).
Proof. intros Hr Ht. unfold on_message. rewrite Hr, Ht. reflexivity. Qed.

(** C9, as stated, fails: a text that is the number 5 is not a string,
    yet the message is stored, broadcast and acknowledged. *)
Lemma number_text_is_accepted :
  is_string (field_of "text" say_five) = false
  ∧ ack (on_message alice say_five true (str "k0") (str "abcdef") (str "t0")
           both_in_lobby).2 = Some (AckMessage (str "k0-abcdef"))
  ∧ length (history_of lobby
              (roomHistory
                 (on_message alice say_five true (str "k0") (str "abcdef") (str "t0")
                    both_in_lobby).1)) = 1
  ∧ ¬ malformed_message_rejected alice say_five true (str "k0") (str "abcdef")
        (str "t0") both_in_lobby.
Proof.
  split; [reflexivity|]. split; [by vm_compute|]. split; [by vm_compute|].
  intros Hrej. unfold malformed_message_rejected, rejected in Hrej.
  specialize (Hrej eq_refl). apply (f_equal (λ res, ack res.2)) in Hrej.
  vm_compute in Hrej. discriminate Hrej.
Qed.

(** C3, as the code has it. A request whose room is a non-empty string
    and whose text is truthy, a non-empty string in particular, builds a
    message with the sender's name as author and the room and text of
    the request, appends it as the newest entry of the room's history,
    acknowledges its id, and emits it once, to exactly the sockets that
    are in the room: the sender receives it when, and only when, it is
    itself in the room. *)
Theorem message_stored_and_sent_to_room (sock : Socket) (payload : Payload)
    (cb : bool) (stamp rnd ts : jsstring) (st : Server) :
  is_string (field_of "room" payload) = true →
  truthy (field_of "room" payload) = true →
  truthy (field_of "text" payload) = true →
  ∃ msg,
    msg_author msg = sock_username sock
    ∧ msg_room msg = field_of "room" payload
    ∧ msg_text msg = field_of "text" payload
    ∧ ack (on_message sock payload cb stamp rnd ts st).2 =
        reply cb (AckMessage (msg_id msg))
    ∧ last (history_of (field_of "room" payload)
              (roomHistory (on_message sock payload cb stamp rnd ts st).1))
        = Some msg
    ∧ sids (on_message sock payload cb stamp rnd ts st).1 = sids st
    ∧ emitted (on_message sock payload cb stamp rnd ts st).2 =
        [{| recipients := allSockets (field_of "room" payload) st;
            event := EvMessage msg |}]
    ∧ ∀ p, observed p (emitted (on_message sock payload cb stamp rnd ts st).2) =
             if decide (p ∈ allSockets (field_of "room" payload) st)
             then [EvMessage msg] else [].
Proof.
  intros _ Hr Ht.
  exists (new_message (sock_username sock) (field_of "room" payload)
            (field_of "text" payload) (field_of "meta" payload) stamp rnd ts).
  unfold on_message. rewrite Hr, Ht.
  cbn [negb orb fst snd emitted ack roomHistory sids set_history].
  split_and!; try reflexivity.
  - rewrite history_of_push. apply push_shift_last.
  - intros p. by rewrite observed_singleton.
Qed.

Lemma message_stored_and_sent_to_room_witness :
  is_string (field_of "room" say_hi) = true
  ∧ truthy (field_of "room" say_hi) = true
  ∧ truthy (field_of "text" say_hi) = true
  ∧ ∃ msg,
      msg_author msg = str "alice"
      ∧ ack (on_message alice say_hi true (str "k0") (str "abcdef") (str "t0")
               both_in_lobby).2 = Some (AckMessage (msg_id msg))
      ∧ last (history_of lobby
                (roomHistory
                   (on_message alice say_hi true (str "k0") (str "abcdef") (str "t0")
                      both_in_lobby).1)) = Some msg
      ∧ observed (str "s1")
          (emitted (on_message alice say_hi true (str "k0") (str "abcdef") (str "t0")
                      both_in_lobby).2) = [EvMessage msg]
      ∧ observed (str "s2")
          (emitted (on_message alice say_hi true (str "k0") (str "abcdef") (str "t0")
                      both_in_lobby).2) = [EvMessage msg].
Proof.
  split; [reflexivity|]. split; [reflexivity|]. split; [reflexivity|].
  destruct (message_stored_and_sent_to_room alice say_hi true
              (str "k0") (str "abcdef") (str "t0") both_in_lobby)
    as (msg & Hauthor & _ & _ & Hack & Hlast & _ & _ & Hobs);
    [reflexivity|reflexivity|reflexivity|].
  exists msg. split; [exact Hauthor|]. split; [exact Hack|]. split; [exact Hlast|].
  split; rewrite Hobs; reflexivity.
Defined.

(** C3, as stated, fails: alice is connected but has not joined the
    lobby; her message to the lobby is acknowledged and reaches bob, who
    is in it, but it is not delivered to alice herself. *)
Lemma sender_outside_room_not_served :
  ack (on_message alice say_hi true (str "k0") (str "abcdef") (str "t0")
         bob_in_lobby).2 = Some (AckMessage (str "k0-abcdef"))
  ∧ observed (str "s1")
      (emitted (on_message alice say_hi true (str "k0") (str "abcdef") (str "t0")
                  bob_in_lobby).2) = []
  ∧ length (observed (str "s2")
              (emitted (on_message alice say_hi true (str "k0") (str "abcdef")
                          (str "t0") bob_in_lobby).2)) = 1
  ∧ ¬ message_round_trip alice (str "lobby") (str "hi") true
        (str "k0") (str "abcdef") (str "t0") bob_in_lobby.
Proof.
  split; [by vm_compute|]. split; [by vm_compute|]. split; [by vm_compute|].
  intros Hrt. destruct (Hrt (str "k0-abcdef")) as (msg & _ & _ & _ & _ & Hobs).
  - by vm_compute.
  - specialize (Hobs (str "s1")). vm_compute in Hobs. discriminate Hobs.
Qed.

(** ** The claim about typing *)

(** A payload from which properties can be read and whose room is
    missing or falsy: the handler returns without emitting. *)
Lemma typing_silent_without_room (sock : Socket) (payload : Payload) (st : Server) :
  payload ≠ PlUndefined →
  payload ≠ PlNull →
  truthy (field_of "room" payload) = false →
  on_typing sock payload st = inr {| emitted := []; ack := None |}.
Proof.
  intros Hu Hn Hfalsy. unfold on_typing.
  destruct payload; try done; by rewrite Hfalsy.
Qed.

(** With a room, the event goes to [socket.to(room)], which for a room
    that is not an array is the sockets of the room other than the
    sender, and its [isTyping] is a boolean. *)
Lemma typing_forwarded (sock : Socket) (payload : Payload) (st : Server) :
  payload ≠ PlUndefined →
  payload ≠ PlNull →
  truthy (field_of "room" payload) = true →
  on_typing sock payload st =
    inr {| emitted :=
             [{| recipients := allSockets (field_of "room" payload) st ∖ {[sock_id sock]};
                 event := EvTyping (sock_username sock) (field_of "room" payload)
                            (JBool (truthy (field_of "isTyping" payload))) |}];
           ack := None |}.
Proof.
  intros Hu Hn Htruthy. unfold on_typing.
  destruct payload; try done; by rewrite Htruthy.
Qed.

(** C10. A "typing" request that carries no payload, or [null], has no
    room field; the handler does not return silently on it: taking the
    argument apart throws a [TypeError], whatever the state and the
    session. *)
Theorem typing_without_payload_throws (sock : Socket) (st : Server) :
  on_typing sock PlUndefined st = inl TypeError
  ∧ on_typing sock PlNull st = inl TypeError.
Proof. split; reflexivity. Qed.

(** ** The claim about the handshake *)

Section Trim.
Implicit Types (s : jsstring).

Lemma trimStart_prefix s :
  ∃ pre, s = pre ++ trimStart s ∧ Forall (λ c, is_white_space c = true) pre.
Proof.
  induction s as [|c s (pre & Hs & Hpre)]; [by exists []|].
  simpl. destruct (is_white_space c) eqn:Hc.
  - exists (c :: pre). split; [by rewrite <- app_comm_cons, <- Hs|].
    by constructor.
  - by exists [].
Qed.

Lemma trimStart_head s c s' : trimStart s = c :: s' → is_white_space c = false.
Proof.
  induction s as [|c0 s IH]; [done|]. simpl.
  destruct (is_white_space c0) eqn:Hc0; [done|]. by intros [= <- _].
Qed.

(** [trim] cuts white space off both ends and nothing else. *)
Lemma trim_inside s :
  ∃ pre post, s = pre ++ trim s ++ post
    ∧ Forall (λ c, is_white_space c = true) pre
    ∧ Forall (λ c, is_white_space c = true) post.
Proof.
  destruct (trimStart_prefix s) as (pre & Hs & Hpre).
  destruct (trimStart_prefix (reverse (trimStart s))) as (post & Hr & Hpost).
  exists pre, (reverse post). split; [|split; [done|]].
  - unfold trim, trimEnd. rewrite <- reverse_app, <- Hr, reverse_involutive. done.
  - apply Forall_forall. intros c Hc. rewrite elem_of_reverse in Hc.
    rewrite Forall_forall in Hpost. by apply Hpost.
Qed.

Lemma trim_nil : trim [] = [].
Proof. reflexivity. Qed.

End Trim.

(** C4. A connection attempt whose claimed username is missing or not a
    string, or is a string that is empty after trimming, is refused and
    leaves the server as it was: no session is created. Any other
    attempt is admitted: the session is registered under the trimmed
    name, it is in its own room only, and the client is sent "connected"
    with its identifier and that name. *)
Theorem handshake_admission (id : jsstring) (auth : Payload) (st : Server) :
  (is_string (claimed_username auth) = false
   ∨ (∃ s, claimed_username auth = JStr s ∧ trim s = []) →
   connect id auth st = inl "invalid username"
   ∧ step st (InConnect id auth) = st)
  ∧ (∀ s, claimed_username auth = JStr s → trim s ≠ [] →
     ∃ st1,
       connect id auth st =
         inr ({| sock_id := id; sock_username := trim s |}, st1,
              {| emitted := [{| recipients := {[id]};
                                event := EvConnected id (trim s) |}];
                 ack := None |})
       ∧ sockets st1 !! id = Some (trim s)
       ∧ socket_rooms id st1 = {[JStr id]}
       ∧ roomHistory st1 = roomHistory st).
Proof.
  split.
  - intros Hbad.
    assert (io_use auth = inl "invalid username") as Huse.
    { unfold io_use. destruct Hbad as [Hns|(s & -> & Hblank)].
      - destruct (claimed_username auth); try done; by case_match.
      - rewrite decide_True by done. by case_match. }
    unfold step, connect. rewrite Huse. by case_decide.
  - intros s Hname Hfull.
    assert (io_use auth = inr (trim s)) as Huse.
    { unfold io_use. rewrite Hname. destruct s as [|c s]; [done|].
      simpl truthy. simpl negb. cbv iota. by rewrite decide_False. }
    unfold connect. rewrite Huse. simpl.
    eexists. split_and!; try reflexivity.
    + apply lookup_insert_eq.
    + unfold socket_rooms. simpl. by rewrite lookup_insert_eq.
Qed.

Lemma handshake_admission_witness :
  (is_string (claimed_username (PlObject {[ "username" := JNum 7 ]})) = false
   ∧ connect (str "s3") (PlObject {[ "username" := JNum 7 ]}) two_connected =
       inl "invalid username")
  ∧ (trim (str "   ") = []
     ∧ connect (str "s3") (PlObject {[ "username" := JStr (str "   ") ]}) two_connected =
         inl "invalid username")
  ∧ (trim (str " carol ") = str "carol"
     ∧ ∃ st1,
         connect (str "s3") (PlObject {[ "username" := JStr (str " carol ") ]})
           two_connected =
           inr ({| sock_id := str "s3"; sock_username := str "carol" |}, st1,
                {| emitted := [{| recipients := {[str "s3"]};
                                  event := EvConnected (str "s3") (str "carol") |}];
                   ack := None |})
         ∧ sockets st1 !! str "s3" = Some (str "carol")).
Proof.
  split; [split; [reflexivity|]|split; [split; [reflexivity|]|split; [reflexivity|]]].
  - apply (handshake_admission (str "s3") (PlObject {[ "username" := JNum 7 ]})
             two_connected).
    left. reflexivity.
  - apply (handshake_admission (str "s3")
             (PlObject {[ "username" := JStr (str "   ") ]}) two_connected).
    right. exists (str "   "). split; reflexivity.
  - destruct (proj2 (handshake_admission (str "s3")
                       (PlObject {[ "username" := JStr (str " carol ") ]})
                       two_connected) (str " carol "))
      as (st1 & Hconn & Hsock & _); [reflexivity|discriminate|].
    exists st1. split; [exact Hconn|exact Hsock].
Defined.

(** ** The claim about disconnection *)

Section Disconnect.
Implicit Types (sock : Socket) (st : Server) (room : JsVal) (p : jsstring).

(** When the connection ends the socket is in no room any more. *)
Lemma close_leaves_every_room sock st room :
  socket_rooms (sock_id sock) (close sock st).1 = ∅
  ∧ (sock_id sock ∉ allSockets room (close sock st).1)
  ∧ sockets (close sock st).1 !! sock_id sock = None.
Proof.
  unfold close. cbn [fst].
  assert (socket_rooms (sock_id sock) (release_socket sock st) = ∅) as Hrooms.
  { rewrite socket_rooms_release. by rewrite decide_True. }
  split; [done|]. split.
  - rewrite elem_of_allSockets, Hrooms. set_solver.
  - apply lookup_delete_eq.
Qed.

(** The other sockets stay where they were. *)
Lemma close_keeps_the_others sock st room p :
  p ≠ sock_id sock →
  p ∈ allSockets room (close sock st).1 ↔ p ∈ allSockets room st.
Proof.
  intros Hne. unfold close. cbn [fst]. rewrite allSockets_release. set_solver.
Qed.

(** By then [socket.rooms] is empty, so the loop of the "disconnect"
    handler has nothing to go through: no "user_left" is emitted. *)
Lemma close_emits_nothing sock st :
  (close sock st).2 = {| emitted := []; ack := None |}.
Proof.
  unfold close, on_disconnect. cbn [snd].
  rewrite socket_rooms_release, decide_True by done.
  by rewrite elements_empty.
Qed.

(** The handler itself, were it run while the socket is still in its
    rooms: a socket [p] that shares [room] with it then receives
    "user_left" for that room exactly once. *)
Lemma user_left_absent sock st room p (l : list JsVal) :
  room ∉ l →
  count_event (EvUserLeft (sock_username sock) room)
    (observed p
       ((λ r, socket_to_emit sock r (EvUserLeft (sock_username sock) r) st)
          <$> filter (λ r, r ≠ JStr (sock_id sock)) l)) = 0.
Proof.
  induction l as [|r l IH]; intros Hnotin; [done|].
  apply not_elem_of_cons in Hnotin as [Hne Hnotin].
  rewrite filter_cons. case_decide; [|by apply IH].
  rewrite fmap_cons. unfold observed, count_event in *.
  rewrite filter_cons. case_decide; [|by apply IH].
  rewrite fmap_cons, filter_cons. cbn [event socket_to_emit].
  case_decide as Heq; [congruence|]. by apply IH.
Qed.

Lemma user_left_once sock st room p (l : list JsVal) :
  NoDup l →
  room ∈ l →
  room ≠ JStr (sock_id sock) →
  p ∈ allSockets room st →
  p ≠ sock_id sock →
  count_event (EvUserLeft (sock_username sock) room)
    (observed p
       ((λ r, socket_to_emit sock r (EvUserLeft (sock_username sock) r) st)
          <$> filter (λ r, r ≠ JStr (sock_id sock)) l)) = 1.
Proof.
  intros Hnd Hin Hown Hp Hne. induction l as [|r l IH]; [by apply elem_of_nil in Hin|].
  apply NoDup_cons in Hnd as [Hnotin Hnd].
  apply elem_of_cons in Hin as [<-|Hin].
  - rewrite filter_cons, decide_True by done. rewrite fmap_cons.
    pose proof (user_left_absent sock st room p l Hnotin) as Hrest.
    unfold observed, count_event in *.
    rewrite filter_cons, decide_True by (cbn [recipients socket_to_emit]; set_solver).
    rewrite fmap_cons, filter_cons, decide_True by done.
    cbn [length]. by rewrite Hrest.
  - assert (r ≠ room) as Hdiff by (intros ->; done).
    rewrite filter_cons. case_decide; [|by apply IH].
    rewrite fmap_cons. specialize (IH Hnd Hin).
    unfold observed, count_event in *.
    rewrite filter_cons. case_decide; [|done].
    rewrite fmap_cons, filter_cons. cbn [event socket_to_emit].
    case_decide as Heq; [congruence|done].
Qed.

Lemma on_disconnect_one_per_room sock st room p :
  room ∈ socket_rooms (sock_id sock) st →
  room ≠ JStr (sock_id sock) →
  p ∈ allSockets room st →
  p ≠ sock_id sock →
  count_event (EvUserLeft (sock_username sock) room)
    (observed p (emitted (on_disconnect sock st))) = 1.
Proof.
  intros Hroom Hown Hp Hne. unfold on_disconnect. cbn [emitted].
  apply user_left_once; try done.
  - apply NoDup_elements.
  - by apply elem_of_elements.
Qed.

End Disconnect.

(** C2. Alice and bob are both in the lobby when alice's connection
    ends. She is removed from the lobby and bob stays, but bob observes
    no "user_left": the handler runs on "disconnect", when alice's set
    of rooms is already empty. Run on the state before the release, the
    same handler gives bob the one notification the claim asks for. *)
Theorem disconnect_notifies_nobody :
  str "s1" ∈ allSockets lobby both_in_lobby
  ∧ str "s2" ∈ allSockets lobby both_in_lobby
  ∧ (str "s1" ∉ allSockets lobby (close alice both_in_lobby).1)
  ∧ str "s2" ∈ allSockets lobby (close alice both_in_lobby).1
  ∧ observed (str "s2") (emitted (close alice both_in_lobby).2) = []
  ∧ observed (str "s2") (emitted (on_disconnect alice both_in_lobby))
    = [EvUserLeft (str "alice") lobby].
Proof.
  split_and!.
  - by vm_compute.
  - by vm_compute.
  - apply close_leaves_every_room.
  - apply close_keeps_the_others; [discriminate|by vm_compute].
  - by rewrite close_emits_nothing.
  - by vm_compute.
Qed.

(** * Further properties of the handlers *)

(** ** More on the history kept by [pushRoomMessage] *)

Lemma push_all_lookup_ne (room room' : JsVal) (msgs : list Msg)
    (h : gmap JsVal (list Msg)) :
  room ≠ room' → push_all room msgs h !! room' = h !! room'.
Proof.
  intros Hne. unfold push_all. revert h.
  induction msgs as [|msg msgs IH]; intros h; [done|].
  simpl. by rewrite IH, pushRoomMessage_lookup_ne.
Qed.

(** X1. Appending to one room, any number of times, leaves the entry of
    every other room as it was: eviction in a full room never costs
    another room a message. *)
Theorem appends_leave_other_rooms (room room' : JsVal) (msgs : list Msg)
    (h : gmap JsVal (list Msg)) :
  room ≠ room' →
  push_all room msgs h !! room' = h !! room'
  ∧ history_of room' (push_all room msgs h) = history_of room' h.
Proof.
  intros Hne. unfold history_of. by rewrite push_all_lookup_ne.
Qed.

Lemma appends_leave_other_rooms_witness :
  lobby ≠ den
  ∧ push_all lobby (numbered <$> seq 0 150) (push_all den [numbered 7] ∅) !! den
    = push_all den [numbered 7] ∅ !! den
  ∧ history_of den (push_all lobby (numbered <$> seq 0 150) (push_all den [numbered 7] ∅))
    = history_of den (push_all den [numbered 7] ∅).
Proof.
  split; [discriminate|].
  apply (appends_leave_other_rooms lobby den). discriminate.
Defined.

(** X2. Whatever the number of appends to a room whose array is within
    the limit, the array afterwards is the newest [ROOM_HISTORY_LIMIT]
    entries of the old array followed by the new messages, in that
    order: eviction is first in, first out. *)
Theorem appends_keep_the_newest (room : JsVal) (msgs : list Msg)
    (h : gmap JsVal (list Msg)) :
  length (history_of room h) ≤ ROOM_HISTORY_LIMIT →
  history_of room (push_all room msgs h) =
    drop (length (history_of room h ++ msgs) - ROOM_HISTORY_LIMIT)
      (history_of room h ++ msgs).
Proof.
  intros Hlen. rewrite history_of_push_all. by apply foldl_push_shift.
Qed.

Lemma appends_keep_the_newest_witness :
  length (history_of lobby (push_all lobby (numbered <$> seq 0 40) ∅))
    ≤ ROOM_HISTORY_LIMIT
  ∧ history_of lobby
      (push_all lobby (numbered <$> seq 40 150)
         (push_all lobby (numbered <$> seq 0 40) ∅))
    = drop (length (history_of lobby (push_all lobby (numbered <$> seq 0 40) ∅)
                    ++ (numbered <$> seq 40 150)) - ROOM_HISTORY_LIMIT)
        (history_of lobby (push_all lobby (numbered <$> seq 0 40) ∅)
         ++ (numbered <$> seq 40 150)).
Proof.
  assert (length (history_of lobby (push_all lobby (numbered <$> seq 0 40) ∅))
            ≤ ROOM_HISTORY_LIMIT) as Hlen.
  { vm_compute. lia. }
  split; [exact Hlen|].
  apply (appends_keep_the_newest lobby (numbered <$> seq 40 150)). exact Hlen.
Defined.

(** X3. As long as the old entries and the new ones together do not
    exceed the limit, nothing is evicted: the array is the old one
    followed by the new messages. *)
Theorem appends_within_limit_keep_all (room : JsVal) (msgs : list Msg)
    (h : gmap JsVal (list Msg)) :
  length (history_of room h) + length msgs ≤ ROOM_HISTORY_LIMIT →
  history_of room (push_all room msgs h) = history_of room h ++ msgs.
Proof.
  intros Hlen. rewrite history_of_push_all, foldl_push_shift by lia.
  rewrite length_app.
  replace (length (history_of room h) + length msgs - ROOM_HISTORY_LIMIT) with 0
    by lia.
  done.
Qed.

Lemma appends_within_limit_keep_all_witness :
  length (history_of lobby ∅) + length (numbered <$> seq 0 100) ≤ ROOM_HISTORY_LIMIT
  ∧ history_of lobby (push_all lobby (numbered <$> seq 0 100) ∅)
    = history_of lobby ∅ ++ (numbered <$> seq 0 100).
Proof.
  assert (length (history_of lobby ∅) + length (numbered <$> seq 0 100)
            ≤ ROOM_HISTORY_LIMIT) as Hlen.
  { vm_compute. lia. }
  split; [exact Hlen|].
  apply (appends_within_limit_keep_all lobby (numbered <$> seq 0 100) ∅). exact Hlen.
Defined.

(** X4. Whatever connections, requests and disconnections the server is
    given, after each of them every room's history holds at most
    [ROOM_HISTORY_LIMIT] messages: "message" is the only handler that
    writes the history, and it does so through [pushRoomMessage]. *)
Theorem history_bounded_on_every_run (inputs : list Input) (n : nat)
    (room : JsVal) :
  length (history_of room (roomHistory (run (take n inputs) initial)))
    ≤ ROOM_HISTORY_LIMIT.
Proof. apply run_history_bounded. Qed.

(** ** Invariants of the states the server reaches *)

Lemma on_message_accepted (sock : Socket) (payload : Payload) (cb : bool)
    (stamp rnd ts : jsstring) (st : Server) :
  truthy (field_of "room" payload) = true →
  truthy (field_of "text" payload) = true →
  on_message sock payload cb stamp rnd ts st =
    (set_history
       (pushRoomMessage (field_of "room" payload)
          (new_message (sock_username sock) (field_of "room" payload)
             (field_of "text" payload) (field_of "meta" payload) stamp rnd ts)
          (roomHistory st)) st,
     {| emitted :=
          [{| recipients := allSockets (field_of "room" payload) st;
              event := EvMessage
                         (new_message (sock_username sock) (field_of "room" payload)
                            (field_of "text" payload) (field_of "meta" payload)
                            stamp rnd ts) |}];
        ack := reply cb (AckMessage (stamp ++ str "-" ++ rnd)) |}).
Proof. intros Hr Ht. unfold on_message. rewrite Hr, Ht. reflexivity. Qed.

Lemma on_message_refused (sock : Socket) (payload : Payload) (cb : bool)
    (stamp rnd ts : jsstring) (st : Server) :
  truthy (field_of "room" payload) && truthy (field_of "text" payload) = false →
  on_message sock payload cb stamp rnd ts st =
    (st, {| emitted := []; ack := reply cb (AckError "room & text required") |}).
Proof.
  intros Hfalsy. unfold on_message.
  destruct (truthy (field_of "room" payload)), (truthy (field_of "text" payload));
    done.
Qed.

Lemma elem_of_push_shift (arr : list Msg) (msg m : Msg) :
  m ∈ push_shift arr msg → m ∈ arr ∨ m = msg.
Proof.
  unfold push_shift. intros Hin.
  assert (m ∈ arr ++ [msg]) as Hall.
  { case_decide; [|done]. destruct (arr ++ [msg]); [done|].
    simpl in Hin. by apply elem_of_cons; right. }
  apply elem_of_app in Hall as [?|Hlast]; [by left|].
  right. by apply list_elem_of_singleton in Hlast.
Qed.

Lemma well_filed_new_message (user : jsstring) (room text meta : JsVal)
    (stamp rnd ts : jsstring) :
  truthy room = true → truthy text = true →
  well_filed room (new_message user room text meta stamp rnd ts).
Proof.
  intros Hr Ht. unfold well_filed, new_message, js_or. simpl.
  split_and!; try done. destruct (truthy meta) eqn:Hm; [by right|by left].
Qed.

Lemma all_well_filed_push (room : JsVal) (msg : Msg) (h : gmap JsVal (list Msg)) :
  well_filed room msg → all_well_filed h →
  all_well_filed (pushRoomMessage room msg h).
Proof.
  intros Hmsg Hall room' m. destruct (decide (room = room')) as [<-|Hne].
  - rewrite history_of_push. intros [Hold| ->]%elem_of_push_shift; [|done].
    by apply Hall.
  - rewrite history_of_push_ne by done. apply Hall.
Qed.

Lemma step_all_well_filed (st : Server) (i : Input) :
  all_well_filed (roomHistory st) → all_well_filed (roomHistory (step st i)).
Proof.
  intros Hall. destruct i as [id auth|sock req|sock]; simpl.
  - case_decide; [done|]. unfold connect. by destruct (io_use auth).
  - case_decide; [|done].
    destruct req as [room cb|room cb|payload cb stamp rnd ts|payload|room cb]; simpl.
    + unfold on_join. by case_match.
    + done.
    + destruct (truthy (field_of "room" payload)) eqn:Hr;
        [destruct (truthy (field_of "text" payload)) eqn:Ht|].
      * rewrite on_message_accepted by done. simpl.
        apply all_well_filed_push; [|done]. by apply well_filed_new_message.
      * rewrite on_message_refused; [done|]. by rewrite Hr, Ht.
      * rewrite on_message_refused; [done|]. by rewrite Hr.
    + by destruct (on_typing sock payload st).
    + done.
  - by case_decide.
Qed.

Lemma run_all_well_filed (inputs : list Input) :
  all_well_filed (roomHistory (run inputs initial)).
Proof.
  assert (∀ st, all_well_filed (roomHistory st) →
                all_well_filed (roomHistory (run inputs st))) as Hrun.
  { unfold run. induction inputs as [|i inputs IH]; intros st Hall; [done|].
    apply IH, step_all_well_filed, Hall. }
  apply Hrun. intros room m. unfold history_of. simpl. rewrite lookup_empty.
  by intros ?%elem_of_nil.
Qed.

(** X5. On every state the server reaches, every message kept in a
    room's history names that room, has a room and a text that are not
    falsy, and carries a [meta] that is either truthy or [null]: a falsy
    [meta] of the client ([0], [false], the empty string) has been
    replaced by [null]. *)
Theorem stored_messages_are_well_filed (inputs : list Input) (room : JsVal)
    (m : Msg) :
  m ∈ history_of room (roomHistory (run inputs initial)) →
  msg_room m = room
  ∧ truthy room = true
  ∧ truthy (msg_text m) = true
  ∧ (msg_meta m = JNull ∨ truthy (msg_meta m) = true).
Proof. apply run_all_well_filed. Qed.

Lemma stored_messages_are_well_filed_witness :
  new_message (str "alice") lobby (JStr (str "hi")) (JNum 0)
      (str "k0") (str "abcdef") (str "t0")
    ∈ history_of lobby
        (roomHistory
           (run (lobby_inputs ++
                 [InRequest alice
                    (ReqMessage say_hi_meta0 true (str "k0") (str "abcdef") (str "t0"))])
              initial))
  ∧ msg_meta (new_message (str "alice") lobby (JStr (str "hi")) (JNum 0)
                (str "k0") (str "abcdef") (str "t0")) = JNull.
Proof.
  assert (new_message (str "alice") lobby (JStr (str "hi")) (JNum 0)
              (str "k0") (str "abcdef") (str "t0")
            ∈ history_of lobby
                (roomHistory
                   (run (lobby_inputs ++
                         [InRequest alice
                            (ReqMessage say_hi_meta0 true (str "k0") (str "abcdef")
                               (str "t0"))])
                      initial))) as Hin.
  { refine (bool_decide_unpack _ _). vm_compute. exact I. }
  split; [exact Hin|].
  destruct (stored_messages_are_well_filed _ _ _ Hin) as (_ & _ & _ & [Hnull|Htruthy]).
  - exact Hnull.
  - discriminate Htruthy.
Defined.

(** X6. On every state the server reaches, a socket that is in a room is
    a socket registered in the namespace, and the room is named by a
    string: events are only ever addressed to connected sockets, and no
    request puts a socket in a room named by anything else. *)
Theorem members_are_connected (inputs : list Input) (room : JsVal)
    (p : jsstring) :
  p ∈ allSockets room (run inputs initial) →
  is_Some (sockets (run inputs initial) !! p) ∧ is_string room = true.
Proof.
  intros Hin. destruct (run_well_formed inputs) as [Hdom Hstr]. split.
  - apply elem_of_dom. rewrite <- Hdom. unfold allSockets in Hin.
    apply elem_of_dom in Hin as [rs Hrs].
    apply map_lookup_filter_Some in Hrs as [Hl _].
    apply elem_of_dom. by eexists.
  - apply (Hstr p). by apply elem_of_allSockets.
Qed.

Lemma members_are_connected_witness :
  str "s2" ∈ allSockets lobby (run lobby_inputs initial)
  ∧ is_Some (sockets (run lobby_inputs initial) !! str "s2")
  ∧ is_string lobby = true.
Proof.
  assert (str "s2" ∈ allSockets lobby (run lobby_inputs initial)) as Hin.
  { refine (bool_decide_unpack _ _). vm_compute. exact I. }
  split; [exact Hin|]. apply (members_are_connected lobby_inputs lobby). exact Hin.
Defined.

(** X7. On every state the server reaches, a message whose room is
    truthy but neither a string nor an object (a number other than 0,
    or [true]) passes the guard: it is acknowledged and stored as the
    newest entry under that key, and the broadcast reaches nobody, since
    no socket can be in such a room. *)
Theorem message_to_unnamed_room_reaches_nobody (inputs : list Input)
    (sock : Socket) (payload : Payload) (cb : bool) (stamp rnd ts p : jsstring) :
  truthy (field_of "room" payload) = true →
  is_string (field_of "room" payload) = false →
  is_object (field_of "room" payload) = false →
  truthy (field_of "text" payload) = true →
  ack (on_message sock payload cb stamp rnd ts (run inputs initial)).2
    = (if cb then Some (AckMessage (stamp ++ str "-" ++ rnd)) else None)
  ∧ last (history_of (field_of "room" payload)
            (roomHistory (on_message sock payload cb stamp rnd ts
                            (run inputs initial)).1))
    = Some (new_message (sock_username sock) (field_of "room" payload)
              (field_of "text" payload) (field_of "meta" payload) stamp rnd ts)
  ∧ observed p (emitted (on_message sock payload cb stamp rnd ts
                           (run inputs initial)).2) = [].
Proof.
  intros Hr Hns _ Ht. rewrite on_message_accepted by done.
  cbn [fst snd ack emitted roomHistory set_history].
  split; [by destruct cb|]. split.
  - rewrite history_of_push. apply push_shift_last.
  - rewrite observed_singleton. cbn [recipients].
    rewrite no_socket_in_unnamed_room by done. by rewrite decide_False by set_solver.
Qed.

Lemma message_to_unnamed_room_reaches_nobody_witness :
  truthy (field_of "room" say_hi_to_5) = true
  ∧ is_string (field_of "room" say_hi_to_5) = false
  ∧ is_object (field_of "room" say_hi_to_5) = false
  ∧ truthy (field_of "text" say_hi_to_5) = true
  ∧ ack (on_message alice say_hi_to_5 true (str "k0") (str "abcdef") (str "t0")
           (run lobby_inputs initial)).2
    = Some (AckMessage (str "k0" ++ str "-" ++ str "abcdef"))
  ∧ last (history_of (field_of "room" say_hi_to_5)
            (roomHistory (on_message alice say_hi_to_5 true (str "k0") (str "abcdef")
                            (str "t0") (run lobby_inputs initial)).1))
    = Some (new_message (sock_username alice) (field_of "room" say_hi_to_5)
              (field_of "text" say_hi_to_5) (field_of "meta" say_hi_to_5)
              (str "k0") (str "abcdef") (str "t0"))
  ∧ observed (str "s2")
      (emitted (on_message alice say_hi_to_5 true (str "k0") (str "abcdef") (str "t0")
                  (run lobby_inputs initial)).2) = [].
Proof.
  split; [reflexivity|]. split; [reflexivity|]. split; [reflexivity|].
  split; [reflexivity|].
  apply (message_to_unnamed_room_reaches_nobody lobby_inputs alice say_hi_to_5 true
           (str "k0") (str "abcdef") (str "t0") (str "s2")); reflexivity.
Defined.

(** ** More on joining and leaving *)

Section JoinLeave.
Implicit Types (sock : Socket) (st : Server) (room : JsVal) (p id : jsstring).

Lemma on_join_accepted sock room cb st :
  truthy room = true → is_string room = true →
  on_join sock room cb st =
    (socket_join (sock_id sock) room st,
     {| emitted :=
          [socket_to_emit sock room (EvUserJoined (sock_username sock) room)
             (socket_join (sock_id sock) room st)];
        ack := reply cb
                 (AckJoin room
                    (size (allSockets room (socket_join (sock_id sock) room st)))
                    (history_of room (roomHistory st))) |}).
Proof. intros Ht Hs. unfold on_join. by rewrite Ht, Hs. Qed.

Lemma on_join_refused sock room cb st :
  truthy room && is_string room = false →
  on_join sock room cb st =
    (st, {| emitted := []; ack := reply cb (AckError "room required") |}).
Proof.
  intros Hbad. unfold on_join. by destruct (truthy room), (is_string room).
Qed.

Lemma socket_join_idemp id room st :
  socket_join id room (socket_join id room st) = socket_join id room st.
Proof.
  unfold socket_join at 1. rewrite socket_rooms_join, decide_True by done.
  unfold socket_join. simpl. rewrite insert_insert_eq.
  replace (socket_rooms id st ∪ {[room]} ∪ {[room]})
    with (socket_rooms id st ∪ {[room]}) by set_solver.
  done.
Qed.

Lemma Server_eq st st' :
  roomHistory st = roomHistory st' → sids st = sids st' →
  sockets st = sockets st' → st = st'.
Proof. destruct st, st'. simpl. by intros -> -> ->. Qed.

(** The sockets that [socket.to(room)] reaches once the sender has
    joined or left [room] are the members of before, the sender apart. *)
Lemma others_after_join sock room st :
  allSockets room (socket_join (sock_id sock) room st) ∖ {[sock_id sock]}
    = allSockets room st ∖ {[sock_id sock]}.
Proof. rewrite allSockets_join, decide_True by done. set_solver. Qed.

Lemma others_after_leave sock room st :
  allSockets room (socket_leave (sock_id sock) room st) ∖ {[sock_id sock]}
    = allSockets room st ∖ {[sock_id sock]}.
Proof. rewrite allSockets_leave, decide_True by done. set_solver. Qed.

Lemma not_member_after_leave sock room cb st :
  sock_id sock ∉ allSockets room (on_leave sock room cb st).1.
Proof.
  rewrite on_leave_state, allSockets_leave, decide_True by done. set_solver.
Qed.

Lemma member_after_join sock room cb st :
  truthy room = true → is_string room = true →
  sock_id sock ∈ allSockets room (on_join sock room cb st).1.
Proof.
  intros Ht Hs. rewrite on_join_accepted by done. cbn [fst].
  rewrite allSockets_join, decide_True by done. set_solver.
Qed.

End JoinLeave.

(** X8. Joining twice in a row is idempotent on the state and on the
    acknowledgment, not on the announcement: the second "join" gives
    the very result of the first, with the same member count and
    history, and with "user_joined" emitted to the other members once
    more. A join that is refused is refused again. *)
Theorem second_join_repeats_first (sock : Socket) (room : JsVal) (cb : bool)
    (st : Server) :
  on_join sock room cb (on_join sock room cb st).1 = on_join sock room cb st.
Proof.
  destruct (truthy room && is_string room) eqn:Hvalid.
  - apply andb_true_iff in Hvalid as [Ht Hs].
    rewrite (on_join_accepted sock room cb st) by done. cbn [fst].
    rewrite on_join_accepted by done. by rewrite socket_join_idemp.
  - rewrite (on_join_refused sock room cb st) by done. cbn [fst].
    by apply on_join_refused.
Qed.

(** X9. Join and leave undo each other: when a socket known to the
    adapter joins a room it was not in and then leaves it, the server is
    in the state it was in before the join. *)
Theorem join_then_leave_restores (sock : Socket) (room : JsVal) (cb cb' : bool)
    (st : Server) (rooms : gset JsVal) :
  sids st !! sock_id sock = Some rooms →
  room ∉ rooms →
  truthy room = true →
  is_string room = true →
  (on_leave sock room cb' (on_join sock room cb st).1).1 = st.
Proof.
  intros Hrooms Hnotin Ht Hs. rewrite on_join_accepted by done.
  cbn [fst]. rewrite on_leave_state. apply Server_eq; [done| |done].
  unfold socket_leave, socket_join, socket_rooms. simpl.
  rewrite Hrooms, lookup_insert_eq, insert_insert_eq. simpl.
  replace ((rooms ∪ {[room]}) ∖ {[room]}) with rooms by set_solver.
  by apply insert_id.
Qed.

Lemma join_then_leave_restores_witness :
  sids two_connected !! sock_id alice = Some {[JStr (str "s1")]}
  ∧ (lobby ∉ ({[JStr (str "s1")]} : gset JsVal))
  ∧ truthy lobby = true
  ∧ is_string lobby = true
  ∧ (on_leave alice lobby true (on_join alice lobby true two_connected).1).1
    = two_connected.
Proof.
  assert (sids two_connected !! sock_id alice = Some {[JStr (str "s1")]}) as Hrooms.
  { vm_compute. reflexivity. }
  assert (lobby ∉ ({[JStr (str "s1")]} : gset JsVal)) as Hnotin.
  { intros Hin. apply elem_of_singleton in Hin. discriminate Hin. }
  split; [exact Hrooms|]. split; [exact Hnotin|].
  split; [reflexivity|]. split; [reflexivity|].
  apply (join_then_leave_restores alice lobby true true two_connected
           {[JStr (str "s1")]} Hrooms Hnotin); reflexivity.
Defined.

(** X10. The member count acknowledged by a successful join is the
    number of members before the join, plus one unless the joiner was
    already a member. *)
Theorem join_count_increments (sock : Socket) (room : JsVal) (cb : bool)
    (st : Server) :
  truthy room = true →
  is_string room = true →
  ack (on_join sock room cb st).2 =
    reply cb
      (AckJoin room
         (size (allSockets room st)
          + (if decide (sock_id sock ∈ allSockets room st) then 0 else 1))
         (history_of room (roomHistory st))).
Proof.
  intros Ht Hs. rewrite on_join_accepted by done. cbn [snd ack].
  do 2 f_equal. rewrite allSockets_join, decide_True by done.
  case_decide as Hin.
  - replace (allSockets room st ∪ {[sock_id sock]}) with (allSockets room st)
      by set_solver.
    lia.
  - rewrite size_union by set_solver. by rewrite size_singleton.
Qed.

Lemma join_count_increments_witness :
  truthy lobby = true
  ∧ is_string lobby = true
  ∧ ack (on_join alice lobby true bob_in_lobby).2 =
      reply true
        (AckJoin lobby
           (size (allSockets lobby bob_in_lobby)
            + (if decide (sock_id alice ∈ allSockets lobby bob_in_lobby) then 0 else 1))
           (history_of lobby (roomHistory bob_in_lobby)))
  ∧ size (allSockets lobby bob_in_lobby)
    + (if decide (sock_id alice ∈ allSockets lobby bob_in_lobby) then 0 else 1) = 2.
Proof.
  split; [reflexivity|]. split; [reflexivity|]. split.
  - apply (join_count_increments alice lobby true bob_in_lobby); reflexivity.
  - vm_compute. reflexivity.
Defined.

(** X11. After a leave of a room named by a string the socket is not in
    the room, and the member count acknowledged is the number of members
    before the leave, minus one if the socket was one of them. Such a
    leave never fails: it is acknowledged with a count whatever the
    membership. *)
Theorem leave_count_decrements (sock : Socket) (room : JsVal) (cb : bool)
    (st : Server) :
  is_string room = true →
  (sock_id sock ∉ allSockets room (on_leave sock room cb st).1)
  ∧ ack (on_leave sock room cb st).2 =
      (if cb
       then Some (AckLeave room
                    (size (allSockets room st)
                     - (if decide (sock_id sock ∈ allSockets room st) then 1 else 0)))
       else None).
Proof.
  intros _. unfold on_leave. cbn [fst snd ack].
  rewrite allSockets_leave, decide_True by done. split; [set_solver|].
  assert (size (allSockets room st ∖ {[sock_id sock]})
          = size (allSockets room st)
            - (if decide (sock_id sock ∈ allSockets room st) then 1 else 0)) as ->.
  { case_decide as Hin.
    - rewrite size_difference by set_solver. by rewrite size_singleton.
    - replace (allSockets room st ∖ {[sock_id sock]}) with (allSockets room st)
        by set_solver.
      lia. }
  by destruct cb.
Qed.

Lemma leave_count_decrements_witness :
  is_string lobby = true
  ∧ (sock_id alice ∉ allSockets lobby (on_leave alice lobby true both_in_lobby).1)
  ∧ ack (on_leave alice lobby true both_in_lobby).2 = Some (AckLeave lobby 1)
  ∧ ack (on_leave alice lobby true bob_in_lobby).2 = Some (AckLeave lobby 1).
Proof.
  split; [reflexivity|].
  destruct (leave_count_decrements alice lobby true both_in_lobby)
    as [Hout Hack]; [reflexivity|].
  destruct (leave_count_decrements alice lobby true bob_in_lobby)
    as [_ Hack']; [reflexivity|].
  split; [exact Hout|]. split.
  - rewrite Hack. vm_compute. reflexivity.
  - rewrite Hack'. vm_compute. reflexivity.
Defined.

(** X12. A successful join is announced to the sockets that were in the
    room before, and never to the joiner itself: each of the others
    receives one "user_joined" with the joiner's name and the room. *)
Theorem join_announced_to_the_others (sock : Socket) (room : JsVal) (cb : bool)
    (st : Server) (p : jsstring) :
  truthy room = true →
  is_string room = true →
  observed p (emitted (on_join sock room cb st).2) =
    if decide (p ∈ allSockets room st ∧ p ≠ sock_id sock)
    then [EvUserJoined (sock_username sock) room] else [].
Proof.
  intros Ht Hs. rewrite on_join_accepted by done. cbn [snd emitted].
  rewrite observed_singleton. unfold socket_to_emit. cbn [recipients event].
  rewrite others_after_join. repeat case_decide; set_solver.
Qed.

Lemma join_announced_to_the_others_witness :
  truthy lobby = true
  ∧ is_string lobby = true
  ∧ observed (str "s2") (emitted (on_join alice lobby true bob_in_lobby).2) =
      (if decide (str "s2" ∈ allSockets lobby bob_in_lobby ∧ str "s2" ≠ sock_id alice)
       then [EvUserJoined (sock_username alice) lobby] else [])
  ∧ observed (str "s2") (emitted (on_join alice lobby true bob_in_lobby).2) =
      [EvUserJoined (str "alice") lobby].
Proof.
  split; [reflexivity|]. split; [reflexivity|]. split.
  - apply (join_announced_to_the_others alice lobby true bob_in_lobby (str "s2"));
      reflexivity.
  - vm_compute. reflexivity.
Defined.

(** X13. A leave of a room named by a string is announced to the sockets
    that remain in the room and never to the leaver; the handler does
    not ask whether the leaver was a member, so the members receive
    "user_left" also when it was not. *)
Theorem leave_announced_to_the_remaining (sock : Socket) (room : JsVal)
    (cb : bool) (st : Server) (p : jsstring) :
  is_string room = true →
  observed p (emitted (on_leave sock room cb st).2) =
    if decide (p ∈ allSockets room st ∧ p ≠ sock_id sock)
    then [EvUserLeft (sock_username sock) room] else [].
Proof.
  intros _. unfold on_leave. cbn [snd emitted].
  rewrite observed_singleton. unfold socket_to_emit. cbn [recipients event].
  rewrite others_after_leave. repeat case_decide; set_solver.
Qed.

Lemma leave_announced_to_the_remaining_witness :
  is_string lobby = true
  ∧ observed (str "s2") (emitted (on_leave alice lobby true both_in_lobby).2)
    = [EvUserLeft (str "alice") lobby]
  ∧ observed (str "s1") (emitted (on_leave alice lobby true both_in_lobby).2) = []
  ∧ observed (str "s2") (emitted (on_leave alice lobby true bob_in_lobby).2)
    = [EvUserLeft (str "alice") lobby].
Proof.
  split; [reflexivity|]. split; [|split].
  - rewrite (leave_announced_to_the_remaining alice lobby true both_in_lobby (str "s2"))
      by reflexivity.
    vm_compute. reflexivity.
  - rewrite (leave_announced_to_the_remaining alice lobby true both_in_lobby (str "s1"))
      by reflexivity.
    vm_compute. reflexivity.
  - rewrite (leave_announced_to_the_remaining alice lobby true bob_in_lobby (str "s2"))
      by reflexivity.
    vm_compute. reflexivity.
Defined.

(** X14. A join or a leave changes the membership of the requesting
    socket in the requested room and nothing else: any other socket, and
    the same socket in any other room, is a member after the request
    exactly when it was before. *)
Theorem membership_of_others_untouched (sock : Socket) (room room' : JsVal)
    (cb : bool) (st : Server) (p : jsstring) :
  p ≠ sock_id sock ∨ room' ≠ room →
  (p ∈ allSockets room' (on_join sock room cb st).1 ↔ p ∈ allSockets room' st)
  ∧ (p ∈ allSockets room' (on_leave sock room cb st).1 ↔ p ∈ allSockets room' st).
Proof.
  intros Hother. split.
  - unfold on_join. case_match; [done|]. cbn [fst].
    rewrite allSockets_join. case_decide; set_solver.
  - unfold on_leave. cbn [fst].
    rewrite allSockets_leave. case_decide; set_solver.
Qed.

Lemma membership_of_others_untouched_witness :
  (str "s2" ≠ sock_id alice ∨ lobby ≠ lobby)
  ∧ (str "s2" ∈ allSockets lobby (on_join alice lobby true bob_in_lobby).1
     ↔ str "s2" ∈ allSockets lobby bob_in_lobby)
  ∧ (str "s2" ∈ allSockets lobby (on_leave alice lobby true bob_in_lobby).1
     ↔ str "s2" ∈ allSockets lobby bob_in_lobby).
Proof.
  assert (str "s2" ≠ sock_id alice ∨ lobby ≠ lobby) as Hother.
  { left. discriminate. }
  split; [exact Hother|].
  apply (membership_of_others_untouched alice lobby lobby true bob_in_lobby (str "s2")).
  exact Hother.
Defined.

(** ** More on messages *)

(** X15. A "message" request, accepted or not, writes nothing but the
    history of the room it names: the rooms of every socket and the
    registered sockets are as before, and so is the history entry of
    every other room. *)
Theorem message_touches_one_history (sock : Socket) (payload : Payload)
    (cb : bool) (stamp rnd ts : jsstring) (st : Server) (room' : JsVal) :
  room' ≠ field_of "room" payload →
  sids (on_message sock payload cb stamp rnd ts st).1 = sids st
  ∧ sockets (on_message sock payload cb stamp rnd ts st).1 = sockets st
  ∧ roomHistory (on_message sock payload cb stamp rnd ts st).1 !! room'
    = roomHistory st !! room'.
Proof.
  intros Hne. unfold on_message. case_match; [done|].
  cbn [fst sids sockets roomHistory set_history].
  split; [done|]. split; [done|]. by rewrite pushRoomMessage_lookup_ne.
Qed.

Lemma message_touches_one_history_witness :
  den ≠ field_of "room" say_hi
  ∧ sids (on_message alice say_hi true (str "k0") (str "abcdef") (str "t0")
            both_in_lobby).1 = sids both_in_lobby
  ∧ sockets (on_message alice say_hi true (str "k0") (str "abcdef") (str "t0")
               both_in_lobby).1 = sockets both_in_lobby
  ∧ roomHistory (on_message alice say_hi true (str "k0") (str "abcdef") (str "t0")
                   both_in_lobby).1 !! den
    = roomHistory both_in_lobby !! den.
Proof.
  split; [discriminate|].
  apply (message_touches_one_history alice say_hi true (str "k0") (str "abcdef")
           (str "t0") both_in_lobby den).
  discriminate.
Defined.

(** X16. What "message" stores, "history" gives back: after an accepted
    message the "history" handler acknowledges, for that room, the array
    of before with the message appended and the oldest entry dropped if
    that made it longer than the limit; the message is its last entry.
    The handler answers any session, member of the room or not. *)
Theorem accepted_message_is_in_history (sock : Socket) (payload : Payload)
    (cb cb' : bool) (stamp rnd ts : jsstring) (st : Server) :
  truthy (field_of "room" payload) = true →
  truthy (field_of "text" payload) = true →
  ack (on_history (field_of "room" payload) cb'
         (on_message sock payload cb stamp rnd ts st).1).2 =
    reply cb'
      (AckHistory (field_of "room" payload)
         (push_shift (history_of (field_of "room" payload) (roomHistory st))
            (new_message (sock_username sock) (field_of "room" payload)
               (field_of "text" payload) (field_of "meta" payload) stamp rnd ts)))
  ∧ last (push_shift (history_of (field_of "room" payload) (roomHistory st))
            (new_message (sock_username sock) (field_of "room" payload)
               (field_of "text" payload) (field_of "meta" payload) stamp rnd ts))
    = Some (new_message (sock_username sock) (field_of "room" payload)
              (field_of "text" payload) (field_of "meta" payload) stamp rnd ts).
Proof.
  intros Hr Ht. rewrite on_message_accepted by done.
  unfold on_history. cbn [fst snd ack roomHistory set_history].
  rewrite history_of_push. split; [done|]. apply push_shift_last.
Qed.

Lemma accepted_message_is_in_history_witness :
  truthy (field_of "room" say_hi) = true
  ∧ truthy (field_of "text" say_hi) = true
  ∧ ack (on_history lobby true
           (on_message alice say_hi true (str "k0") (str "abcdef") (str "t0")
              both_in_lobby).1).2 =
      Some (AckHistory lobby
              [new_message (str "alice") lobby (JStr (str "hi")) JUndefined
                 (str "k0") (str "abcdef") (str "t0")]).
Proof.
  split; [reflexivity|]. split; [reflexivity|].
  destruct (accepted_message_is_in_history alice say_hi true true
              (str "k0") (str "abcdef") (str "t0") both_in_lobby) as [Hack _];
    [reflexivity|reflexivity|].
  change (field_of "room" say_hi) with lobby in Hack.
  rewrite Hack. vm_compute. reflexivity.
Defined.

(** X17. A session that joins a room after a message was accepted for it
    is given that message in the acknowledgment of its join: the history
    acknowledged is the array "message" left, which ends with it. *)
Theorem later_joiner_is_given_the_message (sock joiner : Socket)
    (payload : Payload) (cb cb' : bool) (stamp rnd ts : jsstring) (st : Server) :
  truthy (field_of "room" payload) = true →
  is_string (field_of "room" payload) = true →
  truthy (field_of "text" payload) = true →
  ∃ memberCount history,
    ack (on_join joiner (field_of "room" payload) cb'
           (on_message sock payload cb stamp rnd ts st).1).2 =
      reply cb' (AckJoin (field_of "room" payload) memberCount history)
    ∧ last history =
        Some (new_message (sock_username sock) (field_of "room" payload)
                (field_of "text" payload) (field_of "meta" payload) stamp rnd ts).
Proof.
  intros Hr Hs Ht. rewrite on_message_accepted by done. cbn [fst].
  rewrite on_join_accepted by done. cbn [snd ack roomHistory set_history].
  eexists _, _. split; [reflexivity|].
  rewrite history_of_push. apply push_shift_last.
Qed.

Lemma later_joiner_is_given_the_message_witness :
  truthy (field_of "room" say_hi) = true
  ∧ is_string (field_of "room" say_hi) = true
  ∧ truthy (field_of "text" say_hi) = true
  ∧ ∃ memberCount history,
      ack (on_join alice (field_of "room" say_hi) true
             (on_message bob say_hi true (str "k0") (str "abcdef") (str "t0")
                bob_in_lobby).1).2 =
        reply true (AckJoin (field_of "room" say_hi) memberCount history)
      ∧ last history =
          Some (new_message (sock_username bob) (field_of "room" say_hi)
                  (field_of "text" say_hi) (field_of "meta" say_hi)
                  (str "k0") (str "abcdef") (str "t0")).
Proof.
  split; [reflexivity|]. split; [reflexivity|]. split; [reflexivity|].
  apply (later_joiner_is_given_the_message bob alice say_hi true true
           (str "k0") (str "abcdef") (str "t0") bob_in_lobby); reflexivity.
Defined.

(** X18. Once a session has left a room named by a string it receives no
    message sent to that room afterwards, whoever sends it. *)
Theorem no_message_after_leaving (sock sender : Socket) (room : JsVal)
    (payload : Payload) (cb cb' : bool) (stamp rnd ts : jsstring) (st : Server) :
  is_string room = true →
  field_of "room" payload = room →
  observed (sock_id sock)
    (emitted (on_message sender payload cb' stamp rnd ts
                (on_leave sock room cb st).1).2) = [].
Proof.
  intros _ Hroom. unfold on_message. case_match; [done|].
  cbn [snd emitted]. rewrite observed_singleton. cbn [recipients io_in_emit].
  rewrite decide_False; [done|]. rewrite Hroom.
  change (allSockets room (set_history ?h ?s)) with (allSockets room s).
  apply not_member_after_leave.
Qed.

Lemma no_message_after_leaving_witness :
  is_string lobby = true
  ∧ field_of "room" say_hi = lobby
  ∧ str "s1" ∈ allSockets lobby both_in_lobby
  ∧ observed (sock_id alice)
      (emitted (on_message bob say_hi true (str "k0") (str "abcdef") (str "t0")
                  (on_leave alice lobby true both_in_lobby).1).2) = [].
Proof.
  split; [reflexivity|]. split; [reflexivity|]. split.
  - refine (bool_decide_unpack _ _). vm_compute. exact I.
  - apply (no_message_after_leaving alice bob lobby say_hi true true); reflexivity.
Defined.

(** X19. Once a session has joined a room it receives every message
    accepted for that room afterwards, whoever sends it, member of the
    room or not. *)
Theorem messages_after_joining (sock sender : Socket) (room : JsVal)
    (payload : Payload) (cb cb' : bool) (stamp rnd ts : jsstring) (st : Server) :
  field_of "room" payload = room →
  truthy room = true →
  is_string room = true →
  truthy (field_of "text" payload) = true →
  observed (sock_id sock)
    (emitted (on_message sender payload cb' stamp rnd ts
                (on_join sock room cb st).1).2) =
    [EvMessage (new_message (sock_username sender) room (field_of "text" payload)
                  (field_of "meta" payload) stamp rnd ts)].
Proof.
  intros Hroom Hr Hs Ht. rewrite on_message_accepted by (by rewrite ?Hroom).
  cbn [snd emitted]. rewrite observed_singleton. cbn [recipients event].
  rewrite Hroom. rewrite decide_True; [done|]. by apply member_after_join.
Qed.

Lemma messages_after_joining_witness :
  field_of "room" say_hi = lobby
  ∧ truthy lobby = true
  ∧ is_string lobby = true
  ∧ truthy (field_of "text" say_hi) = true
  ∧ observed (sock_id bob)
      (emitted (on_message alice say_hi true (str "k0") (str "abcdef") (str "t0")
                  (on_join bob lobby true two_connected).1).2) =
      [EvMessage (new_message (sock_username alice) lobby (field_of "text" say_hi)
                    (field_of "meta" say_hi) (str "k0") (str "abcdef") (str "t0"))].
Proof.
  split; [reflexivity|]. split; [reflexivity|]. split; [reflexivity|].
  split; [reflexivity|].
  apply (messages_after_joining bob alice lobby say_hi true true); reflexivity.
Defined.

(** ** More on typing notices *)

(** X20. A "typing" request whose payload can be taken apart and whose
    room is a string, or is missing or falsy, never throws and is never
    acknowledged. With a non-empty string as room it reaches the sockets
    of that room other than the sender, each once, with [isTyping]
    turned into a boolean; without a room it reaches nobody. The sender
    need not be in the room. *)
Theorem typing_reaches_the_others (sock : Socket) (payload : Payload)
    (st : Server) (p : jsstring) :
  payload ≠ PlUndefined →
  payload ≠ PlNull →
  truthy (field_of "room" payload) = false
  ∨ is_string (field_of "room" payload) = true →
  ∃ out,
    on_typing sock payload st = inr out
    ∧ ack out = None
    ∧ observed p (emitted out) =
        if decide (truthy (field_of "room" payload) = true
                   ∧ p ∈ allSockets (field_of "room" payload) st
                   ∧ p ≠ sock_id sock)
        then [EvTyping (sock_username sock) (field_of "room" payload)
                (JBool (truthy (field_of "isTyping" payload)))]
        else [].
Proof.
  intros Hu Hn _. destruct (truthy (field_of "room" payload)) eqn:Hroom.
  - rewrite typing_forwarded by done. eexists. split; [reflexivity|].
    split; [reflexivity|]. cbn [emitted]. rewrite observed_singleton.
    cbn [recipients event]. repeat case_decide; set_solver.
  - rewrite typing_silent_without_room by done. eexists. split; [reflexivity|].
    split; [reflexivity|]. cbn [emitted]. rewrite decide_False; [done|].
    by intros [? _].
Qed.

Lemma typing_reaches_the_others_witness :
  typing_in_lobby ≠ PlUndefined
  ∧ typing_in_lobby ≠ PlNull
  ∧ is_string (field_of "room" typing_in_lobby) = true
  ∧ typing_nowhere ≠ PlUndefined
  ∧ typing_nowhere ≠ PlNull
  ∧ truthy (field_of "room" typing_nowhere) = false
  ∧ (∃ out,
       on_typing alice typing_in_lobby both_in_lobby = inr out
       ∧ observed (str "s2") (emitted out) =
           [EvTyping (str "alice") lobby (JBool true)]
       ∧ observed (str "s1") (emitted out) = [])
  ∧ (∃ out,
       on_typing alice typing_nowhere both_in_lobby = inr out
       ∧ observed (str "s2") (emitted out) = []).
Proof.
  split; [discriminate|]. split; [discriminate|]. split; [reflexivity|].
  split; [discriminate|]. split; [discriminate|]. split; [reflexivity|]. split.
  - destruct (typing_reaches_the_others alice typing_in_lobby both_in_lobby (str "s2"))
      as (out & Hout & _ & Hobs); [discriminate|discriminate|right; reflexivity|].
    destruct (typing_reaches_the_others alice typing_in_lobby both_in_lobby (str "s1"))
      as (out' & Hout' & _ & Hobs'); [discriminate|discriminate|right; reflexivity|].
    exists out. split; [exact Hout|]. split.
    + rewrite Hobs. vm_compute. reflexivity.
    + rewrite Hout in Hout'. injection Hout' as <-. rewrite Hobs'.
      vm_compute. reflexivity.
  - destruct (typing_reaches_the_others alice typing_nowhere both_in_lobby (str "s2"))
      as (out & Hout & _ & Hobs); [discriminate|discriminate|left; reflexivity|].
    exists out. split; [exact Hout|]. rewrite Hobs. vm_compute. reflexivity.
Defined.

(** ** More on the handshake and on connections *)

Section Admission.
Implicit Types (s t u : jsstring) (auth : Payload).

Lemma trimStart_fixed s :
  is_white_space <$> head s ≠ Some true → trimStart s = s.
Proof.
  destruct s as [|c s]; [done|]. simpl. by destruct (is_white_space c).
Qed.

Lemma trimStart_head_not_space s :
  is_white_space <$> head (trimStart s) ≠ Some true.
Proof.
  destruct (trimStart s) as [|c s'] eqn:Ht; [done|]. simpl.
  apply trimStart_head in Ht. by rewrite Ht.
Qed.

Lemma trimStart_idemp s : trimStart (trimStart s) = trimStart s.
Proof. apply trimStart_fixed, trimStart_head_not_space. Qed.

Lemma trimEnd_prefix t :
  ∃ post, t = trimEnd t ++ post ∧ Forall (λ c, is_white_space c = true) post.
Proof.
  destruct (trimStart_prefix (reverse t)) as (pre & Hr & Hpre).
  exists (reverse pre). split.
  - unfold trimEnd. rewrite <- reverse_app, <- Hr. by rewrite reverse_involutive.
  - apply Forall_forall. intros c Hc. rewrite elem_of_reverse in Hc.
    rewrite Forall_forall in Hpre. by apply Hpre.
Qed.

Lemma trimEnd_idemp t : trimEnd (trimEnd t) = trimEnd t.
Proof. unfold trimEnd. by rewrite reverse_involutive, trimStart_idemp. Qed.

Lemma trimEnd_head t : trimEnd t ≠ [] → head (trimEnd t) = head t.
Proof.
  intros Hne. destruct (trimEnd_prefix t) as (post & Ht & _).
  rewrite Ht at 2. by destruct (trimEnd t).
Qed.

Lemma trim_head_not_space s : is_white_space <$> head (trim s) ≠ Some true.
Proof.
  unfold trim. destruct (decide (trimEnd (trimStart s) = [])) as [->|Hne]; [done|].
  rewrite trimEnd_head by done. apply trimStart_head_not_space.
Qed.

Lemma trim_last_not_space s : is_white_space <$> last (trim s) ≠ Some true.
Proof.
  unfold trim, trimEnd. rewrite last_reverse. apply trimStart_head_not_space.
Qed.

Lemma trim_idemp s : trim (trim s) = trim s.
Proof.
  unfold trim at 1. rewrite trimStart_fixed by apply trim_head_not_space.
  unfold trim. apply trimEnd_idemp.
Qed.

Lemma io_use_admits auth u :
  io_use auth = inr u →
  ∃ s, claimed_username auth = JStr s ∧ u = trim s ∧ trim s ≠ [].
Proof.
  unfold io_use. case_match; [done|].
  destruct (claimed_username auth) as [| | | | |s|]; try done.
  case_decide as Hblank; [done|]. intros [= <-]. by exists s.
Qed.

Lemma io_use_string s :
  trim s ≠ [] → io_use (PlObject {[ "username" := JStr s ]}) = inr (trim s).
Proof.
  intros Hfull. unfold io_use, claimed_username, get_field.
  rewrite lookup_singleton_eq. simpl default.
  destruct s as [|c s]; [done|]. simpl truthy. simpl negb. cbv iota.
  by rewrite decide_False.
Qed.

Lemma not_space_head u :
  u ≠ [] → is_white_space <$> head u ≠ Some true →
  is_white_space <$> head u = Some false.
Proof. destruct u as [|c u]; [done|]. simpl. by destruct (is_white_space c). Qed.

Lemma not_space_last u :
  u ≠ [] → is_white_space <$> last u ≠ Some true →
  is_white_space <$> last u = Some false.
Proof.
  intros Hne. destruct (last u) as [c|] eqn:Hlast.
  - simpl. by destruct (is_white_space c).
  - by apply last_None in Hlast.
Qed.

End Admission.

(** X21. The name under which the middleware admits a connection is
    never empty and neither starts nor ends with white space, and it is
    the claimed name with nothing but white space cut off at its two
    ends. *)
Theorem admitted_name_is_trimmed (auth : Payload) (u : jsstring) :
  io_use auth = inr u →
  u ≠ []
  ∧ is_white_space <$> head u = Some false
  ∧ is_white_space <$> last u = Some false
  ∧ ∃ s pre post,
      claimed_username auth = JStr s
      ∧ s = pre ++ u ++ post
      ∧ Forall (λ c, is_white_space c = true) pre
      ∧ Forall (λ c, is_white_space c = true) post.
Proof.
  intros (s & Hname & -> & Hfull)%io_use_admits.
  split; [done|]. split; [|split].
  - apply not_space_head; [done|apply trim_head_not_space].
  - apply not_space_last; [done|apply trim_last_not_space].
  - destruct (trim_inside s) as (pre & post & Hs & Hpre & Hpost).
    by exists s, pre, post.
Qed.

Lemma admitted_name_is_trimmed_witness :
  io_use (PlObject {[ "username" := JStr (str "  dr who ") ]}) = inr (str "dr who")
  ∧ str "dr who" ≠ []
  ∧ is_white_space <$> head (str "dr who") = Some false
  ∧ is_white_space <$> last (str "dr who") = Some false.
Proof.
  assert (io_use (PlObject {[ "username" := JStr (str "  dr who ") ]})
          = inr (str "dr who")) as Huse.
  { vm_compute. reflexivity. }
  split; [exact Huse|].
  destruct (admitted_name_is_trimmed _ _ Huse) as (Hne & Hhead & Hlast & _).
  split; [exact Hne|]. split; [exact Hhead|exact Hlast].
Defined.

(** X22. A name that was admitted is admitted again as it is: a client
    that reconnects under the name the server told it in "connected"
    gets the same name. *)
Theorem admitted_name_is_admitted_again (auth : Payload) (u : jsstring) :
  io_use auth = inr u →
  io_use (PlObject {[ "username" := JStr u ]}) = inr u.
Proof.
  intros (s & _ & -> & Hfull)%io_use_admits.
  rewrite <- (trim_idemp s) at 2. apply io_use_string. by rewrite trim_idemp.
Qed.

Lemma admitted_name_is_admitted_again_witness :
  io_use (PlObject {[ "username" := JStr (str "  dr who ") ]}) = inr (str "dr who")
  ∧ io_use (PlObject {[ "username" := JStr (str "dr who") ]}) = inr (str "dr who").
Proof.
  assert (io_use (PlObject {[ "username" := JStr (str "  dr who ") ]})
          = inr (str "dr who")) as Huse.
  { vm_compute. reflexivity. }
  split; [exact Huse|].
  apply (admitted_name_is_admitted_again _ _ Huse).
Defined.

(** X23. Admitting a connection disturbs nobody: the new socket gets the
    id it was given, every other socket is in the rooms it was in and
    receives nothing, and no history is written. *)
Theorem connection_leaves_the_others (id : jsstring) (auth : Payload)
    (st st1 : Server) (sock : Socket) (out : Out) (p : jsstring) :
  connect id auth st = inr (sock, st1, out) →
  p ≠ id →
  sock_id sock = id
  ∧ socket_rooms p st1 = socket_rooms p st
  ∧ observed p (emitted out) = []
  ∧ roomHistory st1 = roomHistory st.
Proof.
  unfold connect. destruct (io_use auth) as [err|username]; [done|].
  simpl. intros [= <- <- <-] Hne. split; [done|]. split; [|split; [|done]].
  - unfold socket_rooms. simpl. by rewrite lookup_insert_ne.
  - cbn [emitted]. rewrite observed_singleton. cbn [recipients socket_emit sock_id].
    rewrite decide_False; [done|]. set_solver.
Qed.

Lemma connection_leaves_the_others_witness :
  connect (str "s3") (PlObject {[ "username" := JStr (str " carol ") ]}) both_in_lobby
    = inr ({| sock_id := str "s3"; sock_username := str "carol" |},
           accept_socket {| sock_id := str "s3"; sock_username := str "carol" |}
             both_in_lobby,
           {| emitted := [socket_emit {| sock_id := str "s3";
                                         sock_username := str "carol" |}
                            (EvConnected (str "s3") (str "carol"))];
              ack := None |})
  ∧ str "s2" ≠ str "s3"
  ∧ socket_rooms (str "s2")
      (accept_socket {| sock_id := str "s3"; sock_username := str "carol" |}
         both_in_lobby)
    = socket_rooms (str "s2") both_in_lobby.
Proof.
  assert (connect (str "s3") (PlObject {[ "username" := JStr (str " carol ") ]})
            both_in_lobby
          = inr ({| sock_id := str "s3"; sock_username := str "carol" |},
                 accept_socket {| sock_id := str "s3"; sock_username := str "carol" |}
                   both_in_lobby,
                 {| emitted := [socket_emit {| sock_id := str "s3";
                                               sock_username := str "carol" |}
                                  (EvConnected (str "s3") (str "carol"))];
                    ack := None |})) as Hconn.
  { reflexivity. }
  assert (str "s2" ≠ str "s3") as Hne by discriminate.
  split; [exact Hconn|]. split; [exact Hne|].
  destruct (connection_leaves_the_others _ _ _ _ _ _ (str "s2") Hconn Hne)
    as (_ & Hrooms & _).
  exact Hrooms.
Defined.

(** ** More on the end of a connection *)

Lemma observed_by_nobody (p : jsstring) (es : list Emission) :
  Forall (λ e, p ∉ recipients e) es → observed p es = [].
Proof.
  unfold observed. induction 1 as [|e es Hp _ IH]; [done|].
  by rewrite filter_cons, decide_False.
Qed.

(** X24. The end of a connection takes the socket out of every room and
    out of the namespace and touches nothing else: every other socket is
    in the rooms it was in, and the history of every room is kept, also
    of a room that has no member left. *)
Theorem close_cleans_up (sock : Socket) (st : Server) (room : JsVal)
    (p : jsstring) :
  (p ∈ allSockets room (close sock st).1
   ↔ p ∈ allSockets room st ∧ p ≠ sock_id sock)
  ∧ socket_rooms (sock_id sock) (close sock st).1 = ∅
  ∧ sockets (close sock st).1 !! sock_id sock = None
  ∧ roomHistory (close sock st).1 = roomHistory st.
Proof.
  destruct (close_leaves_every_room sock st room) as (Hrooms & _ & Hgone).
  split; [|done].
  unfold close. cbn [fst]. rewrite allSockets_release. set_solver.
Qed.

(** X25. The loop of the "disconnect" handler, on a state in which the
    socket still has its rooms: every other socket that shares a room
    with it, the room named by its own id apart, receives "user_left"
    for that room exactly once, and the socket itself receives nothing. *)
Theorem disconnect_loop_notifies_once (sock : Socket) (st : Server)
    (room : JsVal) (p : jsstring) :
  room ∈ socket_rooms (sock_id sock) st →
  room ≠ JStr (sock_id sock) →
  p ∈ allSockets room st →
  p ≠ sock_id sock →
  count_event (EvUserLeft (sock_username sock) room)
    (observed p (emitted (on_disconnect sock st))) = 1
  ∧ observed (sock_id sock) (emitted (on_disconnect sock st)) = [].
Proof.
  intros Hroom Hown Hp Hne. split; [by apply on_disconnect_one_per_room|].
  apply observed_by_nobody. unfold on_disconnect. cbn [emitted].
  apply Forall_fmap, Forall_forall. intros r _. simpl. set_solver.
Qed.

Lemma disconnect_loop_notifies_once_witness :
  lobby ∈ socket_rooms (sock_id alice) both_in_lobby
  ∧ lobby ≠ JStr (sock_id alice)
  ∧ str "s2" ∈ allSockets lobby both_in_lobby
  ∧ str "s2" ≠ sock_id alice
  ∧ count_event (EvUserLeft (sock_username alice) lobby)
      (observed (str "s2") (emitted (on_disconnect alice both_in_lobby))) = 1
  ∧ observed (sock_id alice) (emitted (on_disconnect alice both_in_lobby)) = [].
Proof.
  assert (lobby ∈ socket_rooms (sock_id alice) both_in_lobby) as Hroom.
  { refine (bool_decide_unpack _ _). vm_compute. exact I. }
  assert (lobby ≠ JStr (sock_id alice)) as Hown by discriminate.
  assert (str "s2" ∈ allSockets lobby both_in_lobby) as Hp.
  { refine (bool_decide_unpack _ _). vm_compute. exact I. }
  assert (str "s2" ≠ sock_id alice) as Hne by discriminate.
  split; [exact Hroom|]. split; [exact Hown|]. split; [exact Hp|].
  split; [exact Hne|].
  apply (disconnect_loop_notifies_once alice both_in_lobby lobby (str "s2")
           Hroom Hown Hp Hne).
Defined.

(** X26. A session whose connection has ended receives no message sent
    to any room afterwards, whoever sends it. *)
Theorem no_message_after_close (sock sender : Socket) (payload : Payload)
    (cb : bool) (stamp rnd ts : jsstring) (st : Server) :
  observed (sock_id sock)
    (emitted (on_message sender payload cb stamp rnd ts (close sock st).1).2) = [].
Proof.
  unfold on_message. case_match; [done|].
  cbn [snd emitted]. rewrite observed_singleton. cbn [recipients io_in_emit].
  rewrite decide_False; [done|].
  change (allSockets ?r (set_history ?h ?s)) with (allSockets r s).
  apply close_leaves_every_room.
Qed.

(** ** Whose name a stored message carries *)

Lemma io_use_admitted (auth : Payload) (u : jsstring) :
  io_use auth = inr u → admitted_name u.
Proof.
  intros (s & _ & -> & Hfull)%io_use_admits. split; [done|apply trim_idemp].
Qed.

Lemma step_names_admitted (st : Server) (i : Input) :
  names_admitted st → names_admitted (step st i).
Proof.
  intros [Hsock Hauth]. destruct i as [id auth|sock req|sock]; simpl.
  - case_decide; [done|]. unfold connect.
    destruct (io_use auth) as [err|u] eqn:Huse; [done|]. simpl. split; [|done].
    intros id' u'. unfold accept_socket. cbn [sockets sock_id sock_username].
    destruct (decide (id = id')) as [<-|Hne].
    + rewrite lookup_insert_eq. intros [= <-]. by apply (io_use_admitted auth).
    + rewrite lookup_insert_ne by done. apply Hsock.
  - case_decide as Hconn; [|done].
    destruct req as [room cb|room cb|payload cb stamp rnd ts|payload|room cb]; simpl.
    + unfold on_join. by case_match.
    + done.
    + unfold on_message. case_match; [done|]. split; [done|].
      cbn [fst roomHistory set_history]. intros room' m.
      destruct (decide (field_of "room" payload = room')) as [<-|Hne].
      * rewrite history_of_push. intros [Hold| ->]%elem_of_push_shift.
        -- by apply (Hauth (field_of "room" payload)).
        -- cbn [msg_author new_message]. by apply (Hsock (sock_id sock)).
      * rewrite history_of_push_ne by done. apply Hauth.
    + by destruct (on_typing sock payload st).
    + done.
  - case_decide; [|done]. split; [|done]. simpl. intros id u.
    destruct (decide (sock_id sock = id)) as [<-|Hne].
    + by rewrite lookup_delete_eq.
    + rewrite lookup_delete_ne by done. apply Hsock.
Qed.

Lemma run_names_admitted (inputs : list Input) : names_admitted (run inputs initial).
Proof.
  assert (∀ st, names_admitted st → names_admitted (run inputs st)) as Hrun.
  { unfold run. induction inputs as [|i inputs IH]; intros st Hall; [done|].
    apply IH, step_names_admitted, Hall. }
  apply Hrun. split.
  - intros id u. simpl. by rewrite lookup_empty.
  - intros room m. unfold history_of. simpl. rewrite lookup_empty.
    by intros ?%elem_of_nil.
Qed.

(** X27. On every state the server reaches, the author of every stored
    message is a name the middleware admitted: it is not empty and has
    no white space at its ends. The handlers take the author from the
    socket, never from the request. *)
Theorem stored_authors_are_admitted_names (inputs : list Input) (room : JsVal)
    (m : Msg) :
  m ∈ history_of room (roomHistory (run inputs initial)) →
  msg_author m ≠ [] ∧ trim (msg_author m) = msg_author m.
Proof. apply run_names_admitted. Qed.

Lemma stored_authors_are_admitted_names_witness :
  new_message (str "bob") lobby (JStr (str "hi")) JUndefined
      (str "k0") (str "abcdef") (str "t0")
    ∈ history_of lobby
        (roomHistory
           (run (lobby_inputs ++
                 [InRequest bob
                    (ReqMessage say_hi true (str "k0") (str "abcdef") (str "t0"))])
              initial))
  ∧ trim (str "bob") = str "bob".
Proof.
  assert (new_message (str "bob") lobby (JStr (str "hi")) JUndefined
              (str "k0") (str "abcdef") (str "t0")
            ∈ history_of lobby
                (roomHistory
                   (run (lobby_inputs ++
                         [InRequest bob
                            (ReqMessage say_hi true (str "k0") (str "abcdef")
                               (str "t0"))])
                      initial))) as Hin.
  { refine (bool_decide_unpack _ _). vm_compute. exact I. }
  split; [exact Hin|].
  destruct (stored_authors_are_admitted_names _ _ _ Hin) as [_ Htrim].
  exact Htrim.
Defined.
